(** * goffkv-consul: the Consul driver of goffkv, embedded from [consul.go]

    The driver translates the abstract key-value operations of goffkv
    (Create, Set, Cas, Erase, Exists, Get, Children, Commit, Close) into
    batches of Consul transaction primitives and maps the batch outcome back.

    Conventions of the embedding:
    - Go [int] is [Z]; [uint64] (versions, modify indices) is [N]; Go strings
      are byte strings, here [string]; [[]byte] is [list byte].
    - A Go method with receiver [c *consulClient] is a computation in the
      monad [M], which threads the receiver's fields and a journal of the
      calls sent to the backing store, and which may panic.
    - A Go result pair [(v, err)] is a pair whose second component is an
      [option goffkv.error] ([None] is [nil]).
    - The backing store and the key validator of goffkv are not part of this
      repository: they are the Variables of Section [Driver]. *)

From Stdlib Require Import ZArith NArith List String Ascii Bool Lia.
From Stdlib.Strings Require Import Byte.
Import ListNotations.

Local Open Scope Z_scope.

(** ** The goffkv types used by the driver *)

Module goffkv.

Definition Version := N.

(** The errors a driver method hands to its caller. [OpErrNoEntry] and
    [OpErrEntryExists] are goffkv's sentinels; [ErrInvalidKey] is what
    [DisassembleKey] reports; [ErrTransport] is an error of the Consul API
    client; [ErrUnexpected] is the [fmt.Errorf] value built in [Create];
    [TxnError] carries the user-level index of a failed transaction item. *)
Inductive error : Type :=
| OpErrNoEntry
| OpErrEntryExists
| ErrInvalidKey (msg : string)
| ErrTransport (msg : string)
| ErrUnexpected (what : string) (opIndex : Z)
| TxnError (index : Z).

(** Go: [err == goffkv.OpErrEntryExists]. *)
Definition isEntryExists (e : error) : bool :=
  match e with OpErrEntryExists => true | _ => false end.

(** The operation kind of a transaction item. It is an integer in Go, so a
    value outside the three named constants is possible: [OtherKind]. *)
Inductive OpKind : Type :=
| Create
| Set_
| Erase
| OtherKind (n : Z).

Record TxnCheck : Type := mkTxnCheck {
  checkKey : string;
  checkVer : Version
}.

Record TxnOp : Type := mkTxnOp {
  What : OpKind;
  Key : string;
  Value : list byte;
  Lease : bool
}.

Record Txn : Type := mkTxn {
  Checks : list TxnCheck;
  Ops : list TxnOp
}.

Record TxnOpResult : Type := mkTxnOpResult {
  resWhat : OpKind;
  resVer : Version
}.

(** A watch is a closure over the path and the version it waits on;
    [watchList] tells the [kv.List] closure of [Children] from the
    [kv.Get] closure of [Exists] and [Get]. [None] is the nil watch. *)
Record Watch : Type := mkWatch {
  watchPath : string;
  waitIndex : Version;
  watchList : bool
}.

End goffkv.

(** ** The Consul API types used by the driver *)

Module consulapi.

Inductive KVOp : Type :=
| KVGet
| KVGetTree
| KVSet
| KVCAS
| KVLock
| KVCheckNotExists
| KVCheckIndex
| KVDelete
| KVDeleteCAS
| KVDeleteTree.

(** [TxnOp{KV: &KVTxnOp{...}}]; a field the source leaves out has Go's zero
    value. *)
Record TxnOp : Type := mkTxnOp {
  Verb : KVOp;
  Key : string;
  Value : list byte;
  Index : N;
  Session : string
}.

Record KVPair : Type := mkKVPair {
  kvKey : string;
  kvValue : list byte;
  ModifyIndex : N
}.

Record TxnError : Type := mkTxnError {
  OpIndex : Z;
  What : string
}.

(** [TxnResponse]: each entry of [Results] is read through its [KV] field. *)
Record TxnResponse : Type := mkTxnResponse {
  Results : list KVPair;
  Errors : list TxnError
}.

(** What [txn.Txn(ops, q)] returns: [(ok, ret, _, err)]. *)
Inductive TxnOutcome : Type :=
| TxnTransportError (msg : string)
| TxnReturned (ok : bool) (ret : TxnResponse).

End consulapi.

Import consulapi(KVGet, KVGetTree, KVSet, KVCAS, KVLock, KVCheckNotExists,
                 KVCheckIndex, KVDelete, KVDeleteCAS, KVDeleteTree,
                 TxnTransportError, TxnReturned).
Import goffkv(OpErrNoEntry, OpErrEntryExists, ErrInvalidKey, ErrTransport,
              ErrUnexpected, TxnError).

(** ** The receiver and the method monad *)

(** The stop channel of the renewal task: nil, made and open, or closed. *)
Inductive chan : Type :=
| ChanNil
| ChanOpen
| ChanClosed.

Record consulClient : Type := mkClient {
  prefixSegments : list string;
  sessionId : string;
  sessionRenewDoneCh : chan
}.

(** The record [New] returns for a mount prefix already disassembled. *)
Definition New (prefixSegs : list string) : consulClient :=
  {| prefixSegments := prefixSegs; sessionId := ""; sessionRenewDoneCh := ChanNil |}.

(** A call sent to the backing store. *)
Inductive Call : Type :=
| CallSessionCreate
| CallTxn (ops : list consulapi.TxnOp)
| CallKVGet (path : string).

Record World : Type := mkWorld {
  client : consulClient;
  journal : list Call
}.

Inductive outcome (A : Type) : Type :=
| Returned (a : A)
| Panicked (msg : string).

Arguments Returned {A} a.
Arguments Panicked {A} msg.

Definition M (A : Type) : Type := World -> outcome A * World.

Definition ret {A : Type} (a : A) : M A := fun w => (Returned a, w).

Definition bind {A B : Type} (m : M A) (k : A -> M B) : M B :=
  fun w =>
    match m w with
    | (Returned a, w') => k a w'
    | (Panicked msg, w') => (Panicked msg, w')
    end.

Definition panic {A : Type} (msg : string) : M A := fun w => (Panicked msg, w).

Declare Scope go_scope.
Delimit Scope go_scope with go.
Notation "x <- m ;; k" := (bind m (fun x => k))
  (at level 100, m at next level, right associativity) : go_scope.
Local Open Scope go_scope.

Definition getClient : M consulClient := fun w => (Returned (client w), w).

Definition setClient (c : consulClient) : M unit :=
  fun w => (Returned tt, {| client := c; journal := journal w |}).

Definition logCall (call : Call) : M unit :=
  fun w => (Returned tt, {| client := client w; journal := journal w ++ [call] |}).

(** Go: [xs[len(xs) - 1]], which panics on an empty slice. *)
Definition lastOf {A : Type} (xs : list A) : M A :=
  match rev xs with
  | x :: _ => ret x
  | [] => panic "index out of range"
  end.

(** Go: [xs[0]]. *)
Definition firstOf {A : Type} (xs : list A) : M A :=
  match xs with
  | x :: _ => ret x
  | [] => panic "index out of range"
  end.

(** Go: [xs[i]] for an [int] index. *)
Definition at_ {A : Type} (xs : list A) (i : Z) : M A :=
  if i <? 0 then panic "index out of range"
  else match nth_error xs (Z.to_nat i) with
       | Some x => ret x
       | None => panic "index out of range"
       end.

Definition len {A : Type} (xs : list A) : Z := Z.of_nat (List.length xs).

(** ** Primitive operations, as the source writes them *)

Definition opGet (path : string) : consulapi.TxnOp :=
  consulapi.mkTxnOp KVGet path [] 0%N "".
Definition opGetTree (path : string) : consulapi.TxnOp :=
  consulapi.mkTxnOp KVGetTree path [] 0%N "".
Definition opCheckNotExists (path : string) : consulapi.TxnOp :=
  consulapi.mkTxnOp KVCheckNotExists path [] 0%N "".
Definition opCheckIndex (path : string) (ver : N) : consulapi.TxnOp :=
  consulapi.mkTxnOp KVCheckIndex path [] ver "".
Definition opSet (path : string) (value : list byte) : consulapi.TxnOp :=
  consulapi.mkTxnOp KVSet path value 0%N "".
Definition opLock (path : string) (value : list byte) (session : string) : consulapi.TxnOp :=
  consulapi.mkTxnOp KVLock path value 0%N session.
Definition opCAS (path : string) (value : list byte) (ver : N) : consulapi.TxnOp :=
  consulapi.mkTxnOp KVCAS path value ver "".
Definition opDelete (path : string) : consulapi.TxnOp :=
  consulapi.mkTxnOp KVDelete path [] 0%N "".
Definition opDeleteCAS (path : string) (ver : N) : consulapi.TxnOp :=
  consulapi.mkTxnOp KVDeleteCAS path [] ver "".
Definition opDeleteTree (path : string) : consulapi.TxnOp :=
  consulapi.mkTxnOp KVDeleteTree path [] 0%N "".

(** ** Paths *)

(** [strings.Join(append(c.prefixSegments, segments...), "/")]. *)
Definition assemblePath (c : consulClient) (segments : list string) : string :=
  String.concat "/" (prefixSegments c ++ segments).

Definition maybeGetParent (c : consulClient) (segments : list string)
  : list consulapi.TxnOp :=
  if 1 <? len segments
  then [opGet (assemblePath c (removelast segments))]
  else [].

(** [strings.LastIndexByte]: the index of the last occurrence of [b], or -1. *)
Fixpoint LastIndexByte (s : string) (b : ascii) : Z :=
  match s with
  | EmptyString => -1
  | String a rest =>
      let r := LastIndexByte rest b in
      if 0 <=? r then r + 1
      else if Ascii.eqb a b then 0 else -1
  end.

(** The bytes of [s] from position [n] on, for [n] within the string. *)
Fixpoint strFrom (n : nat) (s : string) : string :=
  match n, s with
  | O, _ => s
  | S n', String _ rest => strFrom n' rest
  | S _, EmptyString => EmptyString
  end.

(** Go: [s[n:]], which panics unless [0 <= n <= len(s)]. *)
Definition sliceFrom (s : string) (n : Z) : outcome string :=
  if (n <? 0) || (Z.of_nat (String.length s) <? n)
  then Panicked "slice bounds out of range"
  else Returned (strFrom (Z.to_nat n) s).

Definition detachChild (path : string) (nPrefix nGlobalPrefix : Z) : outcome string :=
  let lastSlash := LastIndexByte path "/"%char in
  if nPrefix <=? lastSlash then Returned ""%string
  else if nGlobalPrefix =? 0 then Returned (String.append "/" path)
  else sliceFrom path nGlobalPrefix.

(** [toUserOpIndex]: the position of the first boundary not below [op], or -1.
    [i] is the position of the head of [boundaries] in the whole slice. *)
Fixpoint toUserOpIndexFrom (i : Z) (boundaries : list Z) (op : Z) : Z :=
  match boundaries with
  | [] => -1
  | x :: rest => if op <=? x then i else toUserOpIndexFrom (i + 1) rest op
  end.

Definition toUserOpIndex (boundaries : list Z) (op : Z) : Z :=
  toUserOpIndexFrom 0 boundaries op.

Inductive resultKind : Type :=
| rkCreate
| rkSet
| rkAux.

(** The three slices [Commit] grows side by side. *)
Record Batch : Type := mkBatch {
  ops : list consulapi.TxnOp;
  boundaries : list Z;
  rks : list resultKind
}.

Definition emptyBatch : Batch := {| ops := []; boundaries := []; rks := [] |}.

(** ** A validator and store responses for the example runs *)

(** The pieces of [s] between slashes; [cur] is the piece being read. *)
Fixpoint splitSlash (s cur : string) : list string :=
  match s with
  | EmptyString => [cur]
  | String a rest =>
      if Ascii.eqb a "/"
      then cur :: splitSlash rest EmptyString
      else splitSlash rest (String.append cur (String a EmptyString))
  end.

(** A key validator for the example runs: a key is a "/" followed by one or
    more non-empty segments separated by "/". The theorems below hold for
    every validator. *)
Definition sampleDisassembleKey (key : string) : string + list string :=
  match splitSlash key EmptyString with
  | EmptyString :: seg :: segs =>
      if forallb (fun x => negb (String.eqb x "")) (seg :: segs)
      then inr (seg :: segs)
      else inl "invalid key"%string
  | _ => inl "invalid key"%string
  end.

(** The response of a batch that committed with one result. *)
Definition committedWith (index : N) : consulapi.TxnOutcome :=
  TxnReturned true
    (consulapi.mkTxnResponse [consulapi.mkKVPair "" [] index] []).

(** The response of a batch that failed at [slot]. *)
Definition failedAt (slot : Z) : consulapi.TxnOutcome :=
  TxnReturned false
    (consulapi.mkTxnResponse [] [consulapi.mkTxnError slot "failed"]).

(** A driver fresh from [New], mounted at "mnt", before any call. *)
Definition freshWorld : World :=
  {| client := New ["mnt"%string]; journal := [] |}.

(** The transaction of one check, one set and one erase. *)
Definition sampleTxn : goffkv.Txn :=
  {| goffkv.Checks := [goffkv.mkTxnCheck "/k1" 5%N];
     goffkv.Ops := [goffkv.mkTxnOp goffkv.Set_ "/k1" [] false;
                    goffkv.mkTxnOp goffkv.Erase "/k2" [] false] |}.

(** A driver with a session, its stop channel open. *)
Definition sessionWorld : World :=
  {| client := {| prefixSegments := ["mnt"%string];
                  sessionId := "s1";
                  sessionRenewDoneCh := ChanOpen |};
     journal := [] |}.

(** The response of a batch that committed with the given modify indices. *)
Definition committedAll (indices : list N) : consulapi.TxnOutcome :=
  TxnReturned true
    (consulapi.mkTxnResponse (map (fun i => consulapi.mkKVPair "" [] i) indices) []).

(** The response of a committed listing: the keys found, each at modify
    index 3, then the listed key itself. *)
Definition listed (keys : list string) (own : string) : consulapi.TxnOutcome :=
  TxnReturned true
    (consulapi.mkTxnResponse
       (map (fun k => consulapi.mkKVPair k [] 3%N) keys ++ [consulapi.mkKVPair own [] 2%N])
       []).

(** A transaction of two leased creates. *)
Definition leasedTxn : goffkv.Txn :=
  {| goffkv.Checks := [];
     goffkv.Ops := [goffkv.mkTxnOp goffkv.Create "/a" [] true;
                    goffkv.mkTxnOp goffkv.Create "/b" [] true] |}.

(** ** The driver's methods *)

Section Driver.

(** [goffkv.DisassembleKey]: the segments of a key, or the validator's
    complaint. *)
Variable DisassembleKey : string -> string + list string.

(** [session.Create(&se, nil)]: the new session's id, or the API's error. *)
Variable sessionCreate : string + string.

(** [txn.Txn(ops, makeQueryOptions())]. *)
Variable consulTxn : list consulapi.TxnOp -> consulapi.TxnOutcome.

(** [kv.Get(path, makeQueryOptions())]: the pair, nil for an absent key, or
    the API's error. *)
Variable consulKVGet : string -> string + option consulapi.KVPair.

Definition session_Create : M (string + string) :=
  _ <- logCall CallSessionCreate ;; ret sessionCreate.

Definition txn_Txn (batch : list consulapi.TxnOp) : M consulapi.TxnOutcome :=
  _ <- logCall (CallTxn batch) ;; ret (consulTxn batch).

Definition kv_Get (path : string) : M (string + option consulapi.KVPair) :=
  _ <- logCall (CallKVGet path) ;; ret (consulKVGet path).

(** The renewal goroutine started here is not modelled; the channel it
    listens on is. *)
Definition getOrCreateSessionId : M (string * option goffkv.error) :=
  c <- getClient ;;
  if negb (String.eqb (sessionId c) "")
  then ret (sessionId c, None)
  else
    r <- session_Create ;;
    match r with
    | inl err => ret (""%string, Some (ErrTransport err))
    | inr sid =>
        _ <- setClient {| prefixSegments := prefixSegments c;
                          sessionId := sid;
                          sessionRenewDoneCh := ChanOpen |} ;;
        ret (sid, None)
    end.

Definition Create (key : string) (value : list byte) (lease : bool)
  : M (goffkv.Version * option goffkv.error) :=
  match DisassembleKey key with
  | inl err => ret (0%N, Some (ErrInvalidKey err))
  | inr segments =>
      c <- getClient ;;
      let checkParentOps := maybeGetParent c segments in
      let ops0 := checkParentOps ++ [opCheckNotExists (assemblePath c segments)] in
      built <- (if lease
                then
                  s <- getOrCreateSessionId ;;
                  match s with
                  | (_, Some err) => ret (inl err)
                  | (sid, None) =>
                      ret (inr (ops0 ++ [opLock (assemblePath c segments) value sid]))
                  end
                else ret (inr (ops0 ++ [opSet (assemblePath c segments) value]))) ;;
      match built with
      | inl err => ret (0%N, Some err)
      | inr batch =>
          r <- txn_Txn batch ;;
          match r with
          | TxnTransportError err => ret (0%N, Some (ErrTransport err))
          | TxnReturned true resp =>
              lastResult <- lastOf (consulapi.Results resp) ;;
              ret (consulapi.ModifyIndex lastResult, None)
          | TxnReturned false resp =>
              firstError <- firstOf (consulapi.Errors resp) ;;
              if consulapi.OpIndex firstError <? len checkParentOps
              then ret (0%N, Some OpErrNoEntry)
              else if consulapi.OpIndex firstError =? len checkParentOps
              then ret (0%N, Some OpErrEntryExists)
              else ret (0%N, Some (ErrUnexpected (consulapi.What firstError)
                                                 (consulapi.OpIndex firstError)))
          end
      end
  end.

Definition Set_ (key : string) (value : list byte)
  : M (goffkv.Version * option goffkv.error) :=
  match DisassembleKey key with
  | inl err => ret (0%N, Some (ErrInvalidKey err))
  | inr segments =>
      c <- getClient ;;
      let batch := maybeGetParent c segments ++ [opSet (assemblePath c segments) value] in
      r <- txn_Txn batch ;;
      match r with
      | TxnTransportError err => ret (0%N, Some (ErrTransport err))
      | TxnReturned true resp =>
          lastResult <- lastOf (consulapi.Results resp) ;;
          ret (consulapi.ModifyIndex lastResult, None)
      | TxnReturned false _ => ret (0%N, Some OpErrNoEntry)
      end
  end.

Definition Cas (key : string) (value : list byte) (ver : goffkv.Version)
  : M (goffkv.Version * option goffkv.error) :=
  if (ver =? 0)%N
  then
    r <- Create key value false ;;
    match r with
    | (resultVer, None) => ret (resultVer, None)
    | (_, Some err) =>
        if goffkv.isEntryExists err then ret (0%N, None) else ret (0%N, Some err)
    end
  else
    match DisassembleKey key with
    | inl err => ret (0%N, Some (ErrInvalidKey err))
    | inr segments =>
        c <- getClient ;;
        let batch := [opGet (assemblePath c segments);
                      opCAS (assemblePath c segments) value ver] in
        r <- txn_Txn batch ;;
        match r with
        | TxnTransportError err => ret (0%N, Some (ErrTransport err))
        | TxnReturned true resp =>
            lastResult <- lastOf (consulapi.Results resp) ;;
            ret (consulapi.ModifyIndex lastResult, None)
        | TxnReturned false resp =>
            firstError <- firstOf (consulapi.Errors resp) ;;
            if consulapi.OpIndex firstError =? 0
            then ret (0%N, Some OpErrNoEntry)
            else ret (0%N, None)
        end
    end.

Definition Erase (key : string) (ver : goffkv.Version) : M (option goffkv.error) :=
  match DisassembleKey key with
  | inl err => ret (Some (ErrInvalidKey err))
  | inr segments =>
      c <- getClient ;;
      let ops0 := [opGet (assemblePath c segments)] in
      let ops1 := if (ver =? 0)%N
                  then ops0 ++ [opDelete (assemblePath c segments)]
                  else ops0 ++ [opDeleteCAS (assemblePath c segments) ver] in
      let batch := ops1 ++ [opDeleteTree (String.append (assemblePath c segments) "/")] in
      r <- txn_Txn batch ;;
      match r with
      | TxnTransportError err => ret (Some (ErrTransport err))
      | TxnReturned false resp =>
          firstError <- firstOf (consulapi.Errors resp) ;;
          if consulapi.OpIndex firstError =? 0
          then ret (Some OpErrNoEntry)
          else ret None
      | TxnReturned true _ => ret None
      end
  end.

Definition Exists (key : string) (watch : bool)
  : M (goffkv.Version * option goffkv.Watch * option goffkv.error) :=
  match DisassembleKey key with
  | inl err => ret (0%N, None, Some (ErrInvalidKey err))
  | inr segments =>
      c <- getClient ;;
      let frozenPath := assemblePath c segments in
      r <- kv_Get frozenPath ;;
      match r with
      | inl err => ret (0%N, None, Some (ErrTransport err))
      | inr None => ret (0%N, None, None)
      | inr (Some kv) =>
          let resultVer := consulapi.ModifyIndex kv in
          let resultWatch :=
            if watch then Some (goffkv.mkWatch frozenPath resultVer false) else None in
          ret (resultVer, resultWatch, None)
      end
  end.

Definition Get (key : string) (watch : bool)
  : M (goffkv.Version * list byte * option goffkv.Watch * option goffkv.error) :=
  match DisassembleKey key with
  | inl err => ret (0%N, [], None, Some (ErrInvalidKey err))
  | inr segments =>
      c <- getClient ;;
      let frozenPath := assemblePath c segments in
      r <- kv_Get frozenPath ;;
      match r with
      | inl err => ret (0%N, [], None, Some (ErrTransport err))
      | inr None => ret (0%N, [], None, Some OpErrNoEntry)
      | inr (Some kv) =>
          let resultVer := consulapi.ModifyIndex kv in
          let resultWatch :=
            if watch then Some (goffkv.mkWatch frozenPath resultVer false) else None in
          ret (resultVer, consulapi.kvValue kv, resultWatch, None)
      end
  end.

(** The loop of [Children] over [results[0 .. len(results) - 2]]. *)
Fixpoint collectChildren (results : list consulapi.KVPair) (nPrefix nGlobalPrefix : Z)
         (children : list string) : M (list string) :=
  match results with
  | [] => ret children
  | r :: rest =>
      match detachChild (consulapi.kvKey r) nPrefix nGlobalPrefix with
      | Panicked msg => panic msg
      | Returned child =>
          if String.eqb child ""
          then collectChildren rest nPrefix nGlobalPrefix children
          else collectChildren rest nPrefix nGlobalPrefix (children ++ [child])
      end
  end.

(** The largest modify index among the results, from 0. *)
Definition maxModifyIndex (results : list consulapi.KVPair) : N :=
  fold_left (fun ver r => let curVer := consulapi.ModifyIndex r in
                          if (ver <? curVer)%N then curVer else ver)
            results 0%N.

Definition Children (key : string) (watch : bool)
  : M (list string * option goffkv.Watch * option goffkv.error) :=
  match DisassembleKey key with
  | inl err => ret ([], None, Some (ErrInvalidKey err))
  | inr segments =>
      c <- getClient ;;
      let frozenPath := assemblePath c segments in
      let frozenPrefix := String.append frozenPath "/" in
      let batch := [opGetTree frozenPrefix; opGet frozenPath] in
      r <- txn_Txn batch ;;
      match r with
      | TxnTransportError err => ret ([], None, Some (ErrTransport err))
      | TxnReturned false _ => ret ([], None, Some OpErrNoEntry)
      | TxnReturned true resp =>
          let results := consulapi.Results resp in
          let globalPrefixLength := Z.of_nat (String.length (assemblePath c [])) in
          children <- collectChildren (removelast results)
                        (Z.of_nat (String.length frozenPrefix)) globalPrefixLength [] ;;
          let resultWatch :=
            if watch
            then Some (goffkv.mkWatch frozenPath (maxModifyIndex results) true)
            else None in
          ret (children, resultWatch, None)
      end
  end.

(** The first loop of [Commit], over [txn.Checks]. *)
Fixpoint Commit_checks (c : consulClient) (checks : list goffkv.TxnCheck) (b : Batch)
  : goffkv.error + Batch :=
  match checks with
  | [] => inr b
  | check :: rest =>
      match DisassembleKey (goffkv.checkKey check) with
      | inl err => inl (ErrInvalidKey err)
      | inr segments =>
          let ops1 :=
            if (goffkv.checkVer check =? 0)%N
            then ops b ++ [opGet (assemblePath c segments)]
            else ops b ++ [opCheckIndex (assemblePath c segments) (goffkv.checkVer check)] in
          Commit_checks c rest
            {| ops := ops1;
               boundaries := boundaries b ++ [len ops1 - 1];
               rks := rks b ++ [rkAux] |}
      end
  end.

(** The body of the [switch op.What] of the second loop: the batch and the
    result kinds after the item, or the error that ends [Commit]. *)
Definition Commit_op (op : goffkv.TxnOp) (segments : list string) (b : Batch)
  : M (goffkv.error + list consulapi.TxnOp * list resultKind) :=
  c <- getClient ;;
  let path := assemblePath c segments in
  match goffkv.What op with
  | goffkv.Create =>
      let getParentOp := maybeGetParent c segments in
      let ops1 := ops b ++ getParentOp in
      let rks1 := rks b ++ map (fun _ => rkAux) getParentOp in
      let ops2 := ops1 ++ [opCheckNotExists path] in
      if goffkv.Lease op
      then
        s <- getOrCreateSessionId ;;
        match s with
        | (_, Some err) => ret (inl err)
        | (sid, None) =>
            ret (inr (ops2 ++ [opLock path (goffkv.Value op) sid], rks1 ++ [rkCreate]))
        end
      else ret (inr (ops2 ++ [opSet path (goffkv.Value op)], rks1 ++ [rkCreate]))
  | goffkv.Set_ =>
      ret (inr ((ops b ++ [opGet path]) ++ [opSet path (goffkv.Value op)],
                (rks b ++ [rkAux]) ++ [rkSet]))
  | goffkv.Erase =>
      ret (inr (((ops b ++ [opGet path]) ++ [opDelete path])
                  ++ [opDeleteTree (String.append path "/")],
                rks b ++ [rkAux]))
  | goffkv.OtherKind _ => ret (inr (ops b, rks b))
  end.

(** The second loop of [Commit], over [txn.Ops]. *)
Fixpoint Commit_ops (items : list goffkv.TxnOp) (b : Batch) : M (goffkv.error + Batch) :=
  match items with
  | [] => ret (inr b)
  | op :: rest =>
      match DisassembleKey (goffkv.Key op) with
      | inl err => ret (inl (ErrInvalidKey err))
      | inr segments =>
          step <- Commit_op op segments b ;;
          match step with
          | inl err => ret (inl err)
          | inr (ops1, rks1) =>
              Commit_ops rest
                {| ops := ops1;
                   boundaries := boundaries b ++ [len ops1 - 1];
                   rks := rks1 |}
          end
      end
  end.

(** Both loops: the batch builder of [Commit]. *)
Definition Commit_build (txn : goffkv.Txn) : M (goffkv.error + Batch) :=
  c <- getClient ;;
  match Commit_checks c (goffkv.Checks txn) emptyBatch with
  | inl err => ret (inl err)
  | inr b => Commit_ops (goffkv.Ops txn) b
  end.

(** The loop of [Commit] over the results of a committed batch; [i] is the
    index of the head of [results]. *)
Fixpoint Commit_answer (results : list consulapi.KVPair) (kinds : list resultKind)
         (i : Z) (answer : list goffkv.TxnOpResult) : M (list goffkv.TxnOpResult) :=
  match results with
  | [] => ret answer
  | r :: rest =>
      let ver := consulapi.ModifyIndex r in
      rk <- at_ kinds i ;;
      match rk with
      | rkCreate =>
          Commit_answer rest kinds (i + 1) (answer ++ [goffkv.mkTxnOpResult goffkv.Create ver])
      | rkSet =>
          Commit_answer rest kinds (i + 1) (answer ++ [goffkv.mkTxnOpResult goffkv.Set_ ver])
      | rkAux => Commit_answer rest kinds (i + 1) answer
      end
  end.

Definition Commit (txn : goffkv.Txn)
  : M (list goffkv.TxnOpResult * option goffkv.error) :=
  built <- Commit_build txn ;;
  match built with
  | inl err => ret ([], Some err)
  | inr b =>
      r <- txn_Txn (ops b) ;;
      match r with
      | TxnTransportError err => ret ([], Some (ErrTransport err))
      | TxnReturned true resp =>
          answer <- Commit_answer (consulapi.Results resp) (rks b) 0 [] ;;
          ret (answer, None)
      | TxnReturned false resp =>
          firstError <- firstOf (consulapi.Errors resp) ;;
          let userIndex := toUserOpIndex (boundaries b) (consulapi.OpIndex firstError) in
          if userIndex <? 0
          then panic "txn failed on non-existing op"
          else ret ([], Some (TxnError userIndex))
      end
  end.

(** [close] of a nil channel is guarded by the source; [close] of a closed
    channel is a run-time panic of Go. *)
Definition Close : M unit :=
  c <- getClient ;;
  match sessionRenewDoneCh c with
  | ChanNil => ret tt
  | ChanOpen =>
      setClient {| prefixSegments := prefixSegments c;
                   sessionId := sessionId c;
                   sessionRenewDoneCh := ChanClosed |}
  | ChanClosed => panic "close of closed channel"
  end.

(** ** Vocabulary for the statements *)

(** The primitives for which [Commit] appends a result kind. The source
    marks the other three as producing no result. *)
Definition yieldsResult (op : consulapi.TxnOp) : bool :=
  match consulapi.Verb op with
  | KVCheckNotExists | KVDelete | KVDeleteTree => false
  | _ => true
  end.

(** The number of primitives [Commit] appends for one item of [txn.Ops]. *)
Definition opWidth (op : goffkv.TxnOp) : Z :=
  match DisassembleKey (goffkv.Key op) with
  | inl _ => 0
  | inr segments =>
      match goffkv.What op with
      | goffkv.Create => (if 1 <? len segments then 1 else 0) + 2
      | goffkv.Set_ => 2
      | goffkv.Erase => 3
      | goffkv.OtherKind _ => 0
      end
  end.

(** One primitive per check, then [opWidth] per operation. *)
Definition itemWidths (txn : goffkv.Txn) : list Z :=
  map (fun _ => 1) (goffkv.Checks txn) ++ map opWidth (goffkv.Ops txn).

(** The index of the last primitive of each item, for items of the given
    widths laid out from slot [start] on. *)
Fixpoint lastSlots (start : Z) (widths : list Z) : list Z :=
  match widths with
  | [] => []
  | wd :: rest => (start + wd - 1) :: lastSlots (start + wd) rest
  end.

Definition total (widths : list Z) : Z := fold_right Z.add 0 widths.

(** The world after one more call to the backing store. *)
Definition called (w : World) (call : Call) : World :=
  {| client := client w; journal := journal w ++ [call] |}.

(** How a batch [b'] extends a batch [b] by items of the given widths: the
    primitives of the items are appended, one boundary per item records its
    last primitive, and the result kinds keep pace with the primitives that
    yield a result. *)
Definition extends (b b' : Batch) (widths : list Z) : Prop :=
  len (ops b') = len (ops b) + total widths /\
  boundaries b' = boundaries b ++ lastSlots (len (ops b)) widths /\
  (List.length (rks b) = List.length (filter yieldsResult (ops b)) ->
   List.length (rks b') = List.length (filter yieldsResult (ops b'))).

(** What every method but [Close] keeps of the world: the mount prefix, the
    calls already journalled, a session once it exists, and a stop channel
    that is not closed. *)
Definition keeps (w w' : World) : Prop :=
  prefixSegments (client w') = prefixSegments (client w) /\
  (exists calls, journal w' = journal w ++ calls) /\
  (sessionId (client w) <> ""%string -> client w' = client w) /\
  (sessionRenewDoneCh (client w') = ChanClosed ->
   sessionRenewDoneCh (client w) = ChanClosed).

Definition Keeps {A : Type} (m : M A) : Prop := forall w, keeps w (snd (m w)).

(** The world moved on by session creations only: same mount, no
    transaction and no read sent. *)
Definition onlySessionCalls (w w' : World) : Prop :=
  exists calls, journal w' = journal w ++ calls
                /\ Forall (fun call => call = CallSessionCreate) calls.

(** A transaction item that asks for a session. *)
Definition leasedCreate (op : goffkv.TxnOp) : bool :=
  match goffkv.What op with
  | goffkv.Create => goffkv.Lease op
  | _ => false
  end.

(** The results [Commit] answers with, for results and result kinds read
    side by side. *)
Fixpoint answerOf (results : list consulapi.KVPair) (kinds : list resultKind)
  : list goffkv.TxnOpResult :=
  match results, kinds with
  | r :: results', rkCreate :: kinds' =>
      goffkv.mkTxnOpResult goffkv.Create (consulapi.ModifyIndex r) :: answerOf results' kinds'
  | r :: results', rkSet :: kinds' =>
      goffkv.mkTxnOpResult goffkv.Set_ (consulapi.ModifyIndex r) :: answerOf results' kinds'
  | _ :: results', rkAux :: kinds' => answerOf results' kinds'
  | _, _ => []
  end.

(** The kind of result an item of [txn.Ops] is answered with, if any. *)
Definition answeredKind (op : goffkv.TxnOp) : list goffkv.OpKind :=
  match goffkv.What op with
  | goffkv.Create => [goffkv.Create]
  | goffkv.Set_ => [goffkv.Set_]
  | _ => []
  end.

(** The kind a result kind is answered as. *)
Definition answeredAs (rk : resultKind) : list goffkv.OpKind :=
  match rk with
  | rkCreate => [goffkv.Create]
  | rkSet => [goffkv.Set_]
  | rkAux => []
  end.

(** What the loop of [Children] appends for one result. *)
Definition keptChild (nPrefix nGlobalPrefix : Z) (r : consulapi.KVPair) : list string :=
  match detachChild (consulapi.kvKey r) nPrefix nGlobalPrefix with
  | Returned child => if String.eqb child "" then [] else [child]
  | Panicked _ => []
  end.

(** No "/" among the bytes of [s]. *)
Fixpoint slashFree (s : string) : bool :=
  match s with
  | EmptyString => true
  | String a rest => negb (Ascii.eqb a "/") && slashFree rest
  end.

(** ** The path and index functions on small inputs *)

Example LastIndexByte_runs :
  LastIndexByte "a/b/c" "/" = 3 /\ LastIndexByte "abc" "/" = -1
  /\ LastIndexByte "/" "/" = 0 /\ LastIndexByte "" "/" = -1.
Proof. repeat split. Qed.

Example assemblePath_runs :
  assemblePath (New ["mnt"%string]) ["a"; "b"]%string = "mnt/a/b"%string
  /\ assemblePath (New []) ["a"; "b"]%string = "a/b"%string
  /\ assemblePath (New ["mnt"%string]) [] = "mnt"%string.
Proof. repeat split. Qed.

Example toUserOpIndex_runs :
  toUserOpIndex [0; 2; 5] 0 = 0 /\ toUserOpIndex [0; 2; 5] 1 = 1
  /\ toUserOpIndex [0; 2; 5] 3 = 2 /\ toUserOpIndex [0; 2; 5] 6 = -1
  /\ toUserOpIndex [] 0 = -1.
Proof. repeat split. Qed.

(** ** Properties of the single-key operations *)

Ltac go_unfold :=
  unfold txn_Txn, kv_Get, session_Create, firstOf, lastOf, bind, ret, panic,
    logCall, getClient, setClient, called in *.

(** C3. [Cas] with a non-zero version sends exactly the batch
    [get(path); cas(path, value, ver)], and the version it returns on commit
    is read from the last result. When the batch does not commit, a
    failure at slot 0 gives [OpErrNoEntry], and a failure at any other slot,
    the compare-and-swap slot 1 among them, gives version 0 and no error. *)
Theorem Cas_nonzero_version :
  forall (key : string) (value : list byte) (ver : goffkv.Version)
         (segments : list string) (w : World),
    ver <> 0%N ->
    DisassembleKey key = inr segments ->
    let path := assemblePath (client w) segments in
    let batch := [opGet path; opCAS path value ver] in
    snd (Cas key value ver w) = called w (CallTxn batch) /\
    (forall resp results r,
        consulTxn batch = TxnReturned true resp ->
        consulapi.Results resp = results ++ [r] ->
        fst (Cas key value ver w) = Returned (consulapi.ModifyIndex r, None)) /\
    forall resp e rest,
      consulTxn batch = TxnReturned false resp ->
      consulapi.Errors resp = e :: rest ->
      (consulapi.OpIndex e = 0 ->
       fst (Cas key value ver w) = Returned (0%N, Some OpErrNoEntry)) /\
      (consulapi.OpIndex e = 1 ->
       fst (Cas key value ver w) = Returned (0%N, None)) /\
      (consulapi.OpIndex e <> 0 ->
       fst (Cas key value ver w) = Returned (0%N, None)).
Proof.
  intros key value ver segments w Hver Hkey path batch.
  apply N.eqb_neq in Hver.
  unfold Cas. rewrite Hver, Hkey. go_unfold. fold path. fold batch.
  split.
  - destruct (consulTxn batch) as [msg | [|] resp]; cbn; try reflexivity.
    + destruct (rev (consulapi.Results resp)); reflexivity.
    + destruct (consulapi.Errors resp) as [|e rest]; cbn; [reflexivity|].
      destruct (consulapi.OpIndex e =? 0); reflexivity.
  - split.
    + intros resp results r Hresp Hres. rewrite Hresp, Hres, rev_unit. reflexivity.
    + intros resp e rest Hresp Herrs. rewrite Hresp, Herrs. cbn.
      split; [|split]; intros Hidx.
      * rewrite Hidx. reflexivity.
      * rewrite Hidx. reflexivity.
      * apply Z.eqb_neq in Hidx. rewrite Hidx. reflexivity.
Qed.

(** C5. [Erase] sends exactly the batch [get(path)], then [delete(path)]
    for version 0 or [delete-if-version(path, ver)] otherwise, then
    [delete-subtree(path + "/")]. When the batch does not commit, a failure
    at slot 0 gives [OpErrNoEntry] and a failure at any other slot gives no
    error. *)
Theorem Erase_batch_and_errors :
  forall (key : string) (ver : goffkv.Version) (segments : list string) (w : World),
    DisassembleKey key = inr segments ->
    let path := assemblePath (client w) segments in
    let batch := [opGet path;
                  if (ver =? 0)%N then opDelete path else opDeleteCAS path ver;
                  opDeleteTree (String.append path "/")] in
    snd (Erase key ver w) = called w (CallTxn batch) /\
    forall resp e rest,
      consulTxn batch = TxnReturned false resp ->
      consulapi.Errors resp = e :: rest ->
      (consulapi.OpIndex e = 0 -> fst (Erase key ver w) = Returned (Some OpErrNoEntry)) /\
      (consulapi.OpIndex e <> 0 -> fst (Erase key ver w) = Returned None).
Proof.
  intros key ver segments w Hkey path batch.
  unfold Erase. rewrite Hkey. go_unfold. fold path.
  assert (Hbatch :
            (if (ver =? 0)%N
             then [opGet path] ++ [opDelete path]
             else [opGet path] ++ [opDeleteCAS path ver])
              ++ [opDeleteTree (String.append path "/")] = batch)
    by (unfold batch; destruct (ver =? 0)%N; reflexivity).
  rewrite Hbatch. split.
  - destruct (consulTxn batch) as [msg | [|] resp]; cbn; try reflexivity.
    destruct (consulapi.Errors resp) as [|e rest]; cbn; [reflexivity|].
    destruct (consulapi.OpIndex e =? 0); reflexivity.
  - intros resp e rest Hresp Herrs. rewrite Hresp, Herrs. cbn.
    split; intros Hidx.
    + rewrite Hidx. reflexivity.
    + apply Z.eqb_neq in Hidx. rewrite Hidx. reflexivity.
Qed.

(** C9. When the batch of [Set] is executed and does not commit, [Set]
    returns [OpErrNoEntry] whatever the response says about the failing
    slot; and [Set] never returns [OpErrEntryExists] or an unexpected-failure
    error. *)
Theorem Set_failure_is_NoEntry :
  forall (key : string) (value : list byte) (w : World),
    (forall segments resp,
        DisassembleKey key = inr segments ->
        consulTxn (maybeGetParent (client w) segments
                     ++ [opSet (assemblePath (client w) segments) value])
          = TxnReturned false resp ->
        fst (Set_ key value w) = Returned (0%N, Some OpErrNoEntry)) /\
    (forall v, fst (Set_ key value w) <> Returned (v, Some OpErrEntryExists)) /\
    (forall v what idx, fst (Set_ key value w) <> Returned (v, Some (ErrUnexpected what idx))).
Proof.
  intros key value w. unfold Set_.
  destruct (DisassembleKey key) as [err | segments] eqn:Hkey.
  - go_unfold. cbn. repeat split; intros; discriminate.
  - go_unfold. cbn. split.
    + intros segments' resp' Hseg Hr. injection Hseg as <-.
      rewrite Hr. reflexivity.
    + destruct (consulTxn _) as [msg | [|] resp]; cbn;
        try (split; intros; discriminate).
      destruct (rev (consulapi.Results resp)); cbn; split; intros; discriminate.
Qed.

(** C10. [Exists] on a well-formed key that the store reports absent returns
    version 0, the nil watch and no error, with or without a watch requested;
    [Get] on the same key returns [OpErrNoEntry]. *)
Theorem Exists_absent_key :
  forall (key : string) (watch : bool) (segments : list string) (w : World),
    DisassembleKey key = inr segments ->
    consulKVGet (assemblePath (client w) segments) = inr None ->
    Exists key watch w
      = (Returned (0%N, None, None),
         called w (CallKVGet (assemblePath (client w) segments))) /\
    fst (Get key watch w) = Returned (0%N, [], None, Some OpErrNoEntry).
Proof.
  intros key watch segments w Hkey Habsent.
  unfold Exists, Get. rewrite Hkey. go_unfold. cbn.
  rewrite Habsent. split; reflexivity.
Qed.

(** [maybeGetParent] yields no operation or the one parent get. *)
Lemma maybeGetParent_cases :
  forall (c : consulClient) (segments : list string),
    (maybeGetParent c segments = [] /\ len segments <= 1) \/
    (maybeGetParent c segments = [opGet (assemblePath c (removelast segments))]
     /\ 1 < len segments).
Proof.
  intros c segments. unfold maybeGetParent.
  destruct (1 <? len segments) eqn:Hlen.
  - right. split; [reflexivity | now apply Z.ltb_lt].
  - left. split; [reflexivity | now apply Z.ltb_ge].
Qed.

(** A failed [Create] without lease reports version 0. *)
Lemma Create_error_version :
  forall (key : string) (value : list byte) (w : World) (v : goffkv.Version)
         (e : goffkv.error),
    fst (Create key value false w) = Returned (v, Some e) -> v = 0%N.
Proof.
  intros key value w v e. unfold Create.
  destruct (DisassembleKey key) as [err | segments]; go_unfold; cbn.
  - intros H. now injection H as <- _.
  - destruct (consulTxn _) as [msg | [|] resp]; cbn.
    + intros H. now injection H as <- _.
    + destruct (rev (consulapi.Results resp)); cbn; intros H; discriminate.
    + destruct (consulapi.Errors resp) as [|fe rest]; cbn; [discriminate|].
      destruct (_ <? _); [intros H; injection H as <- _; reflexivity|].
      destruct (_ =? _); intros H; injection H as <- _; reflexivity.
Qed.

(** C2. When the batch of [Create] is executed and does not commit, the
    first error's slot decides the result: below the number of parent checks
    it is [OpErrNoEntry], equal to it (the check-not-exists on the key) it is
    [OpErrEntryExists], and above it the unexpected-failure error carrying
    the diagnostic and the slot. The batch is the parent checks, the
    check-not-exists, then the lock (with lease) or the set. *)
Theorem Create_failure_errors :
  forall (key : string) (value : list byte) (lease : bool) (segments : list string)
         (w w1 : World) (final : consulapi.TxnOp)
         (resp : consulapi.TxnResponse) (e : consulapi.TxnError)
         (rest : list consulapi.TxnError),
    DisassembleKey key = inr segments ->
    let path := assemblePath (client w) segments in
    let checkParentOps := maybeGetParent (client w) segments in
    (if lease
     then exists sid, getOrCreateSessionId w = (Returned (sid, None), w1)
                      /\ final = opLock path value sid
     else w1 = w /\ final = opSet path value) ->
    let batch := checkParentOps ++ [opCheckNotExists path; final] in
    consulTxn batch = TxnReturned false resp ->
    consulapi.Errors resp = e :: rest ->
    snd (Create key value lease w) = called w1 (CallTxn batch) /\
    (consulapi.OpIndex e < len checkParentOps ->
     fst (Create key value lease w) = Returned (0%N, Some OpErrNoEntry)) /\
    (consulapi.OpIndex e = len checkParentOps ->
     fst (Create key value lease w) = Returned (0%N, Some OpErrEntryExists)) /\
    (len checkParentOps < consulapi.OpIndex e ->
     fst (Create key value lease w)
     = Returned (0%N, Some (ErrUnexpected (consulapi.What e) (consulapi.OpIndex e)))).
Proof.
  intros key value lease segments w w1 final resp e rest Hkey path checkParentOps
         Hfinal batch Hresp Herrs.
  assert (Hrun : Create key value lease w
                 = (Returned
                      (if consulapi.OpIndex e <? len checkParentOps
                       then (0%N, Some OpErrNoEntry)
                       else if consulapi.OpIndex e =? len checkParentOps
                            then (0%N, Some OpErrEntryExists)
                            else (0%N, Some (ErrUnexpected (consulapi.What e)
                                                           (consulapi.OpIndex e)))),
                    called w1 (CallTxn batch))).
  { unfold Create. rewrite Hkey.
    unfold bind at 1. unfold getClient at 1. cbv beta iota.
    fold path. fold checkParentOps.
    assert (Hb : forall x, (checkParentOps ++ [opCheckNotExists path]) ++ [x]
                           = checkParentOps ++ [opCheckNotExists path; x])
      by (intros x; rewrite <- app_assoc; reflexivity).
    destruct lease.
    - destruct Hfinal as [sid [Hsid ->]].
      unfold bind at 1. unfold bind at 1. rewrite Hsid. cbv beta iota.
      rewrite Hb. fold batch. go_unfold. cbn. rewrite Hresp, Herrs. cbn.
      destruct (_ <? _); [reflexivity|]. destruct (_ =? _); reflexivity.
    - destruct Hfinal as [-> ->].
      rewrite Hb. fold batch. go_unfold. cbn. rewrite Hresp, Herrs. cbn.
      destruct (_ <? _); [reflexivity|]. destruct (_ =? _); reflexivity. }
  rewrite Hrun. cbn [fst snd]. split; [reflexivity|].
  repeat split; intros Hidx.
  - apply Z.ltb_lt in Hidx. rewrite Hidx. reflexivity.
  - rewrite Hidx, Z.ltb_irrefl, Z.eqb_refl. reflexivity.
  - assert (H1 : (consulapi.OpIndex e <? len checkParentOps) = false)
      by (apply Z.ltb_ge; lia).
    assert (H2 : (consulapi.OpIndex e =? len checkParentOps) = false)
      by (apply Z.eqb_neq; lia).
    rewrite H1, H2. reflexivity.
Qed.

Ltac cas_close :=
  first [ assumption
        | congruence
        | match goal with
          | Hbad : forall msg, ?dk = inl msg -> _, Hm : ?dk = inl _ |- _ =>
              specialize (Hbad _ Hm); congruence
          end ].

(** C4. [Cas] with version 0 runs [Create(key, value, false)] and nothing
    else: a success returns the version [Create] returned, [OpErrEntryExists]
    becomes version 0 without error, and every other error of [Create]
    (a malformed key among them) is returned as it is. *)
Theorem Cas_zero_delegates_to_Create :
  forall (key : string) (value : list byte) (w : World),
    snd (Cas key value 0%N w) = snd (Create key value false w) /\
    (forall v, fst (Create key value false w) = Returned (v, None) ->
               fst (Cas key value 0%N w) = Returned (v, None)) /\
    (forall v, fst (Create key value false w) = Returned (v, Some OpErrEntryExists) ->
               fst (Cas key value 0%N w) = Returned (0%N, None)) /\
    (forall v err, fst (Create key value false w) = Returned (v, Some err) ->
                   err <> OpErrEntryExists ->
                   fst (Cas key value 0%N w) = Returned (v, Some err)) /\
    (forall msg, fst (Create key value false w) = Panicked msg ->
                 fst (Cas key value 0%N w) = Panicked msg) /\
    (forall msg, DisassembleKey key = inl msg ->
                 fst (Cas key value 0%N w) = Returned (0%N, Some (ErrInvalidKey msg))).
Proof.
  intros key value w.
  pose proof (Create_error_version key value w) as Hzero.
  assert (Hbad : forall msg, DisassembleKey key = inl msg ->
                             Create key value false w
                             = (Returned (0%N, Some (ErrInvalidKey msg)), w))
    by (intros msg Hmsg; unfold Create; rewrite Hmsg; reflexivity).
  unfold Cas. cbn [N.eqb]. unfold bind.
  destruct (Create key value false w) as [[[v oe] | pmsg] w'];
    cbn [fst snd] in *.
  - destruct oe as [err|]; unfold ret.
    + specialize (Hzero v err eq_refl). subst v.
      destruct err; cbn [goffkv.isEntryExists fst snd];
        repeat split; intros; cas_close.
    + repeat split; intros; cas_close.
  - repeat split; intros; cas_close.
Qed.

(** ** Properties of the path functions *)

(** [LastIndexByte] is -1 when the byte does not occur; otherwise it is a
    position of the byte with no occurrence after it. *)
Lemma LastIndexByte_spec :
  forall (s : string) (b : ascii),
    (LastIndexByte s b = -1 /\ forall i, String.get i s <> Some b) \/
    (0 <= LastIndexByte s b
     /\ String.get (Z.to_nat (LastIndexByte s b)) s = Some b
     /\ forall i, LastIndexByte s b < Z.of_nat i -> String.get i s <> Some b).
Proof.
  intros s b. induction s as [|a rest IH]; cbn [LastIndexByte].
  - left. split; [reflexivity|]. intros i. destruct i; discriminate.
  - destruct IH as [[Hr Hnone] | [Hpos [Hget Hafter]]].
    + rewrite Hr. cbn [Z.leb Z.compare].
      destruct (Ascii.eqb a b) eqn:Hab.
      * right. apply Ascii.eqb_eq in Hab. subst a.
        split; [lia|]. split; [reflexivity|].
        intros i Hi. destruct i as [|j]; [lia|]. cbn. apply Hnone.
      * left. split; [reflexivity|].
        intros i. destruct i as [|j]; cbn.
        -- intros H. injection H as ->. rewrite Ascii.eqb_refl in Hab. discriminate.
        -- apply Hnone.
    + assert (Hle : (0 <=? LastIndexByte rest b) = true) by now apply Z.leb_le.
      rewrite Hle. right. split; [lia|]. split.
      * replace (Z.to_nat (LastIndexByte rest b + 1))
          with (S (Z.to_nat (LastIndexByte rest b))) by lia.
        cbn. exact Hget.
      * intros i Hi. destruct i as [|j]; [lia|]. cbn. apply Hafter. lia.
Qed.

(** Every occurrence of the byte is at or before [LastIndexByte]. *)
Lemma LastIndexByte_upper :
  forall (s : string) (b : ascii) (i : nat),
    String.get i s = Some b -> Z.of_nat i <= LastIndexByte s b.
Proof.
  intros s b i Hget.
  destruct (LastIndexByte_spec s b) as [[_ Hnone] | [_ [_ Hafter]]].
  - exfalso. exact (Hnone i Hget).
  - destruct (Z_lt_le_dec (LastIndexByte s b) (Z.of_nat i)) as [Hlt | Hle]; [|exact Hle].
    exfalso. exact (Hafter i Hlt Hget).
Qed.

(** With no occurrence from a non-negative position on, [LastIndexByte] is
    below that position. *)
Lemma LastIndexByte_below :
  forall (s : string) (b : ascii) (n : Z),
    0 <= n ->
    (forall i, n <= Z.of_nat i -> String.get i s <> Some b) ->
    LastIndexByte s b < n.
Proof.
  intros s b n Hn Hnone.
  destruct (LastIndexByte_spec s b) as [[Hr _] | [Hpos [Hget _]]]; [lia|].
  destruct (Z_lt_le_dec (LastIndexByte s b) n) as [Hlt | Hle]; [exact Hlt|].
  exfalso. apply (Hnone (Z.to_nat (LastIndexByte s b))); [lia | exact Hget].
Qed.

(** [strFrom n s] is what is left of [s] after its first [n] bytes. *)
Lemma strFrom_split :
  forall (n : nat) (s : string),
    (n <= String.length s)%nat ->
    exists head, s = String.append head (strFrom n s) /\ String.length head = n.
Proof.
  induction n as [|n IH]; intros s Hn.
  - exists EmptyString. split; reflexivity.
  - destruct s as [|a rest]; cbn in Hn; [lia|].
    destruct (IH rest) as [head [Heq Hlen]]; [lia|].
    exists (String a head). cbn. split; [now rewrite <- Heq | now rewrite Hlen].
Qed.

(** What [detachChild] returns is never a path with a slash at or after
    [nPrefix]. *)
Lemma detachChild_nonempty :
  forall (path child : string) (nPrefix nGlobalPrefix : Z),
    detachChild path nPrefix nGlobalPrefix = Returned child ->
    child <> ""%string ->
    forall i, nPrefix <= Z.of_nat i -> String.get i path <> Some "/"%char.
Proof.
  intros path child nPrefix nGlobalPrefix Hret Hne i Hi Hget.
  unfold detachChild in Hret.
  destruct (nPrefix <=? LastIndexByte path "/") eqn:Hcmp.
  - injection Hret as <-. now apply Hne.
  - apply Z.leb_gt in Hcmp. apply LastIndexByte_upper in Hget. lia.
Qed.

(** The loop of [Children] keeps what was collected and adds only non-empty
    results of [detachChild] on the keys it visits. *)
Lemma collectChildren_sound :
  forall (results : list consulapi.KVPair) (nPrefix nGlobalPrefix : Z)
         (acc out : list string) (w w' : World),
    collectChildren results nPrefix nGlobalPrefix acc w = (Returned out, w') ->
    forall child, In child out ->
      In child acc \/
      exists r, In r results
                /\ detachChild (consulapi.kvKey r) nPrefix nGlobalPrefix = Returned child
                /\ child <> ""%string.
Proof.
  induction results as [|r rest IH]; intros nPrefix nGlobalPrefix acc out w w' Hrun child Hin.
  - cbn in Hrun. unfold ret in Hrun. injection Hrun as <- _. now left.
  - cbn [collectChildren] in Hrun.
    destruct (detachChild (consulapi.kvKey r) nPrefix nGlobalPrefix) as [c | msg] eqn:Hd;
      [|unfold panic in Hrun; discriminate].
    destruct (String.eqb c "") eqn:Hc.
    + destruct (IH _ _ _ _ _ _ Hrun child Hin) as [Hacc | [r' [Hr' Hrest]]].
      * now left.
      * right. exists r'. split; [now right | exact Hrest].
    + destruct (IH _ _ _ _ _ _ Hrun child Hin) as [Hacc | [r' [Hr' Hrest]]].
      * apply in_app_or in Hacc. destruct Hacc as [Hacc | [<- | []]].
        -- now left.
        -- right. exists r. split; [now left|]. split; [exact Hd|].
           now apply String.eqb_neq.
      * right. exists r'. split; [now right | exact Hrest].
Qed.

(** C8, amended. [detachChild] returns the empty string when the path has a
    "/" at or after [nPrefix]. Otherwise, for a non-negative [nPrefix], it
    returns "/" followed by the path when [nGlobalPrefix] is 0, and, when
    [nGlobalPrefix] is not 0 and [0 <= nGlobalPrefix <= len(path)], the rest
    of the path from that position on. Hence every child that [Children] lists
    comes from a result key, the last result apart, with no "/" at or after
    the length of the listed prefix. *)
Theorem detachChild_direct_children :
  (forall (path : string) (nPrefix nGlobalPrefix : Z),
      ((exists i, nPrefix <= Z.of_nat i /\ String.get i path = Some "/"%char) ->
       detachChild path nPrefix nGlobalPrefix = Returned ""%string) /\
      (0 <= nPrefix ->
       (forall i, nPrefix <= Z.of_nat i -> String.get i path <> Some "/"%char) ->
       (nGlobalPrefix = 0 ->
        detachChild path nPrefix nGlobalPrefix = Returned (String.append "/" path)) /\
       (nGlobalPrefix <> 0 ->
        0 <= nGlobalPrefix <= Z.of_nat (String.length path) ->
        exists head child,
          detachChild path nPrefix nGlobalPrefix = Returned child
          /\ path = String.append head child
          /\ Z.of_nat (String.length head) = nGlobalPrefix))) /\
  (forall (key : string) (watch : bool) (segments : list string) (w : World)
          (resp : consulapi.TxnResponse) (children : list string)
          (resultWatch : option goffkv.Watch),
      DisassembleKey key = inr segments ->
      let frozenPath := assemblePath (client w) segments in
      let frozenPrefix := String.append frozenPath "/" in
      let nPrefix := Z.of_nat (String.length frozenPrefix) in
      let nGlobalPrefix := Z.of_nat (String.length (assemblePath (client w) [])) in
      consulTxn [opGetTree frozenPrefix; opGet frozenPath] = TxnReturned true resp ->
      fst (Children key watch w) = Returned (children, resultWatch, None) ->
      forall child, In child children ->
        exists r, In r (removelast (consulapi.Results resp))
                  /\ (forall i, nPrefix <= Z.of_nat i ->
                                String.get i (consulapi.kvKey r) <> Some "/"%char)
                  /\ detachChild (consulapi.kvKey r) nPrefix nGlobalPrefix
                     = Returned child).
Proof.
  split.
  - intros path nPrefix nGlobalPrefix. unfold detachChild. split.
    + intros [i [Hi Hget]]. apply LastIndexByte_upper in Hget.
      assert (Hcmp : (nPrefix <=? LastIndexByte path "/") = true)
        by (apply Z.leb_le; lia).
      rewrite Hcmp. reflexivity.
    + intros Hn Hnone.
      pose proof (LastIndexByte_below path "/"%char nPrefix Hn Hnone) as Hlt.
      assert (Hcmp : (nPrefix <=? LastIndexByte path "/") = false)
        by (apply Z.leb_gt; exact Hlt).
      rewrite Hcmp. split.
      * intros ->. reflexivity.
      * intros Hg Hrange. apply Z.eqb_neq in Hg. rewrite Hg.
        unfold sliceFrom.
        assert (Hin : ((nGlobalPrefix <? 0)
                       || (Z.of_nat (String.length path) <? nGlobalPrefix)) = false).
        { apply orb_false_iff. split; apply Z.ltb_ge; lia. }
        rewrite Hin.
        destruct (strFrom_split (Z.to_nat nGlobalPrefix) path) as [head [Heq Hlen]];
          [lia|].
        exists head, (strFrom (Z.to_nat nGlobalPrefix) path).
        split; [reflexivity|]. split; [exact Heq | lia].
  - intros key watch segments w resp children resultWatch Hkey
           frozenPath frozenPrefix nPrefix nGlobalPrefix Hresp Hrun child Hin.
    unfold Children in Hrun. rewrite Hkey in Hrun. go_unfold. cbn in Hrun.
    fold frozenPath in Hrun. fold frozenPrefix in Hrun. rewrite Hresp in Hrun.
    fold nPrefix in Hrun. fold nGlobalPrefix in Hrun.
    destruct (collectChildren (removelast (consulapi.Results resp)) nPrefix nGlobalPrefix []
                {| client := client w;
                   journal := journal w ++ [CallTxn [opGetTree frozenPrefix;
                                                     opGet frozenPath]] |})
      as [[out | msg] w'] eqn:Hloop; cbn in Hrun; [|discriminate].
    injection Hrun as -> _.
    destruct (collectChildren_sound _ _ _ _ _ _ _ Hloop child Hin)
      as [[] | [r [Hr [Hd Hne]]]].
    exists r. split; [exact Hr|]. split; [|exact Hd].
    exact (detachChild_nonempty _ _ _ _ Hd Hne).
Qed.

(** ** Properties of [Close] *)

(** C7, amended. [Close] does nothing when the stop channel was never made,
    so it may be repeated in that state, and a driver fresh from [New] is in
    that state. After [getOrCreateSessionId] has created a session, [Close]
    returns normally and leaves the channel closed. *)
Theorem Close_safe :
  (forall w : World,
      sessionRenewDoneCh (client w) = ChanNil ->
      Close w = (Returned tt, w) /\ (_ <- Close ;; Close) w = (Returned tt, w)) /\
  (forall (prefixSegs : list string) (calls : list Call),
      Close {| client := New prefixSegs; journal := calls |}
      = (Returned tt, {| client := New prefixSegs; journal := calls |})) /\
  (forall (w w1 : World) (sid : string),
      sessionId (client w) = ""%string ->
      getOrCreateSessionId w = (Returned (sid, None), w1) ->
      sessionRenewDoneCh (client w1) = ChanOpen /\
      exists w2, Close w1 = (Returned tt, w2)
                 /\ sessionRenewDoneCh (client w2) = ChanClosed
                 /\ sessionId (client w2) = sid).
Proof.
  assert (Hnil : forall w : World,
             sessionRenewDoneCh (client w) = ChanNil -> Close w = (Returned tt, w)).
  { intros w Hch. unfold Close. go_unfold. rewrite Hch. reflexivity. }
  split; [|split].
  - intros w Hch. split; [now apply Hnil|].
    unfold bind. rewrite (Hnil w Hch). now apply Hnil.
  - intros prefixSegs calls. now apply Hnil.
  - intros w w1 sid Hsid Hrun.
    unfold getOrCreateSessionId in Hrun. go_unfold. rewrite Hsid in Hrun.
    cbn in Hrun. destruct sessionCreate as [err | sid']; [discriminate|].
    injection Hrun as <- <-. cbn. split; [reflexivity|].
    unfold Close. go_unfold. cbn. eexists. repeat split.
Qed.

(** ** Properties of the batch builder of [Commit] *)

Lemma total_app :
  forall l1 l2 : list Z, total (l1 ++ l2) = total l1 + total l2.
Proof.
  unfold total. induction l1 as [|x l1 IH]; intros l2; cbn [app fold_right];
    [reflexivity | rewrite IH; lia].
Qed.

Lemma lastSlots_app :
  forall (l1 l2 : list Z) (start : Z),
    lastSlots start (l1 ++ l2) = lastSlots start l1 ++ lastSlots (start + total l1) l2.
Proof.
  induction l1 as [|x l1 IH]; intros l2 start; cbn.
  - now rewrite Z.add_0_r.
  - rewrite IH. fold (total l1). now rewrite Z.add_assoc.
Qed.

Lemma lastSlots_length :
  forall (widths : list Z) (start : Z),
    List.length (lastSlots start widths) = List.length widths.
Proof.
  induction widths as [|x l IH]; intros start; cbn; [reflexivity|]. now rewrite IH.
Qed.

Lemma extends_refl : forall b : Batch, extends b b [].
Proof.
  intros b. unfold extends. cbn. rewrite app_nil_r, Z.add_0_r. auto.
Qed.

Lemma extends_trans :
  forall (b1 b2 b3 : Batch) (l1 l2 : list Z),
    extends b1 b2 l1 -> extends b2 b3 l2 -> extends b1 b3 (l1 ++ l2).
Proof.
  intros b1 b2 b3 l1 l2 [Hlen1 [Hb1 Hr1]] [Hlen2 [Hb2 Hr2]].
  unfold extends. rewrite total_app, lastSlots_app. repeat split.
  - lia.
  - rewrite Hb2, Hb1, Hlen1, <- app_assoc. reflexivity.
  - auto.
Qed.

Lemma len_app : forall (A : Type) (l1 l2 : list A), len (l1 ++ l2) = len l1 + len l2.
Proof. intros A l1 l2. unfold len. rewrite length_app. lia. Qed.

Lemma len_maybeGetParent :
  forall (c : consulClient) (segments : list string),
    len (maybeGetParent c segments) = if 1 <? len segments then 1 else 0.
Proof.
  intros c segments. unfold maybeGetParent. destruct (1 <? len segments); reflexivity.
Qed.

(** The parent checks yield results, one each. *)
Lemma maybeGetParent_yields :
  forall (c : consulClient) (segments : list string),
    filter yieldsResult (maybeGetParent c segments) = maybeGetParent c segments.
Proof.
  intros c segments. unfold maybeGetParent. destruct (1 <? len segments); reflexivity.
Qed.

Ltac count_slots :=
  repeat rewrite ?filter_app, ?length_app, ?length_map, ?maybeGetParent_yields in *;
  cbn [filter yieldsResult consulapi.Verb opGet opSet opLock opDelete opDeleteTree
       opCheckNotExists opCheckIndex List.length app] in *;
  try lia.

Lemma Commit_checks_extends :
  forall (c : consulClient) (checks : list goffkv.TxnCheck) (b b' : Batch),
    Commit_checks c checks b = inr b' ->
    extends b b' (map (fun _ => 1) checks).
Proof.
  intros c checks. induction checks as [|check rest IH]; intros b b' Hrun.
  - cbn in Hrun. injection Hrun as <-. apply extends_refl.
  - cbn [Commit_checks] in Hrun.
    destruct (DisassembleKey (goffkv.checkKey check)) as [err | segments];
      [discriminate|].
    apply IH in Hrun.
    change (map (fun _ : goffkv.TxnCheck => 1) (check :: rest))
      with ([1] ++ map (fun _ : goffkv.TxnCheck => 1) rest).
    eapply extends_trans; [|exact Hrun].
    unfold extends. cbn [ops boundaries rks lastSlots total fold_right].
    destruct (goffkv.checkVer check =? 0)%N; rewrite !len_app;
      (split; [cbn; lia | split; [f_equal; f_equal; cbn; lia | intros; count_slots]]).
Qed.

Lemma Commit_op_extends :
  forall (op : goffkv.TxnOp) (segments : list string) (b : Batch) (w w' : World)
         (ops1 : list consulapi.TxnOp) (rks1 : list resultKind),
    DisassembleKey (goffkv.Key op) = inr segments ->
    Commit_op op segments b w = (Returned (inr (ops1, rks1)), w') ->
    len ops1 = len (ops b) + opWidth op /\
    (List.length (rks b) = List.length (filter yieldsResult (ops b)) ->
     List.length rks1 = List.length (filter yieldsResult ops1)).
Proof.
  intros op segments b w w' ops1 rks1 Hkey Hrun.
  unfold opWidth. rewrite Hkey.
  unfold Commit_op, bind, getClient, ret in Hrun.
  destruct (goffkv.What op).
  - destruct (goffkv.Lease op).
    + destruct (getOrCreateSessionId w) as [[[sid [err|]] | msg] w2];
        try discriminate.
      injection Hrun as <- <- _.
      rewrite !len_app, len_maybeGetParent. split; [cbn; lia|].
      intros Hinv. count_slots.
    + injection Hrun as <- <- _.
      rewrite !len_app, len_maybeGetParent. split; [cbn; lia|].
      intros Hinv. count_slots.
  - injection Hrun as <- <- _. rewrite !len_app. split; [cbn; lia|].
    intros Hinv. count_slots.
  - injection Hrun as <- <- _. rewrite !len_app. split; [cbn; lia|].
    intros Hinv. count_slots.
  - injection Hrun as <- <- _. split; [lia | auto].
Qed.

Lemma Commit_ops_extends :
  forall (items : list goffkv.TxnOp) (b b' : Batch) (w w' : World),
    Commit_ops items b w = (Returned (inr b'), w') ->
    extends b b' (map opWidth items).
Proof.
  induction items as [|op rest IH]; intros b b' w w' Hrun.
  - cbn in Hrun. unfold ret in Hrun. injection Hrun as <- _. apply extends_refl.
  - cbn [Commit_ops] in Hrun.
    destruct (DisassembleKey (goffkv.Key op)) as [err | segments] eqn:Hkey;
      [unfold ret in Hrun; discriminate|].
    unfold bind in Hrun.
    destruct (Commit_op op segments b w) as [[[err | [ops1 rks1]] | msg] w1] eqn:Hop;
      try (unfold ret in Hrun; discriminate).
    apply IH in Hrun.
    destruct (Commit_op_extends _ _ _ _ _ _ _ Hkey Hop) as [Hlen Hinv].
    change (map opWidth (op :: rest)) with ([opWidth op] ++ map opWidth rest).
    eapply extends_trans; [|exact Hrun].
    unfold extends. cbn [ops boundaries rks lastSlots total fold_right].
    split; [lia | split; [f_equal; f_equal; lia | exact Hinv]].
Qed.

(** The batch builder lays the items out one after the other from slot 0. *)
Lemma Commit_build_extends :
  forall (txn : goffkv.Txn) (b : Batch) (w w1 : World),
    Commit_build txn w = (Returned (inr b), w1) ->
    extends emptyBatch b (itemWidths txn).
Proof.
  intros txn b w w1 Hrun. unfold Commit_build, bind, getClient in Hrun.
  destruct (Commit_checks (client w) (goffkv.Checks txn) emptyBatch) as [err | b0] eqn:Hc;
    [unfold ret in Hrun; discriminate|].
  apply Commit_checks_extends in Hc. apply Commit_ops_extends in Hrun.
  exact (extends_trans _ _ _ _ _ Hc Hrun).
Qed.

(** C6, amended. For every Txn that the batch builder of [Commit] accepts,
    the result-kind slice has exactly one entry per primitive that yields a
    result (every primitive but check-not-exists, delete and delete-subtree),
    so never more entries than the batch has slots; and the boundaries slice
    has one entry per user-level item, Checks first, holding the index of
    the item's last primitive in the batch. *)
Theorem Commit_build_slices :
  forall (txn : goffkv.Txn) (b : Batch) (w w1 : World),
    Commit_build txn w = (Returned (inr b), w1) ->
    List.length (rks b) = List.length (filter yieldsResult (ops b)) /\
    (List.length (rks b) <= List.length (ops b))%nat /\
    boundaries b = lastSlots 0 (itemWidths txn) /\
    len (ops b) = total (itemWidths txn) /\
    List.length (boundaries b)
    = (List.length (goffkv.Checks txn) + List.length (goffkv.Ops txn))%nat.
Proof.
  intros txn b w w1 Hrun.
  destruct (Commit_build_extends _ _ _ _ Hrun) as [Hlen [Hbounds Hkinds]].
  cbn in Hlen, Hbounds, Hkinds. specialize (Hkinds eq_refl).
  repeat apply conj.
  - exact Hkinds.
  - rewrite Hkinds. apply filter_length_le.
  - exact Hbounds.
  - exact Hlen.
  - rewrite Hbounds, lastSlots_length. unfold itemWidths.
    rewrite length_app, !length_map. reflexivity.
Qed.

(** ** Properties of the failure mapping of [Commit] *)

Lemma toUserOpIndexFrom_found :
  forall (bs : list Z) (i op : Z) (k : nat) (x : Z),
    nth_error bs k = Some x ->
    op <= x ->
    (forall j y, (j < k)%nat -> nth_error bs j = Some y -> y < op) ->
    toUserOpIndexFrom i bs op = i + Z.of_nat k.
Proof.
  induction bs as [|b0 rest IH]; intros i op k x Hnth Hle Hbefore.
  - destruct k; discriminate.
  - destruct k as [|k']; cbn [toUserOpIndexFrom].
    + cbn in Hnth. injection Hnth as ->.
      assert (Hcmp : (op <=? x) = true) by now apply Z.leb_le.
      rewrite Hcmp. lia.
    + assert (Hlt : b0 < op) by (apply (Hbefore 0%nat); [lia | reflexivity]).
      assert (Hcmp : (op <=? b0) = false) by now apply Z.leb_gt.
      rewrite Hcmp. rewrite (IH (i + 1) op k' x Hnth Hle); [lia|].
      intros j y Hj Hy. apply (Hbefore (S j)); [lia | exact Hy].
Qed.

Lemma toUserOpIndexFrom_none :
  forall (bs : list Z) (i op : Z),
    (forall x, In x bs -> x < op) ->
    toUserOpIndexFrom i bs op = -1.
Proof.
  induction bs as [|b0 rest IH]; intros i op Hall; cbn [toUserOpIndexFrom].
  - reflexivity.
  - assert (Hcmp : (op <=? b0) = false) by (apply Z.leb_gt, Hall; now left).
    rewrite Hcmp. apply IH. intros x Hx. apply Hall. now right.
Qed.

(** Among the last slots of items laid out from [start], a slot inside the
    layout has a first boundary at or above it. *)
Lemma lastSlots_covers :
  forall (widths : list Z) (start op : Z),
    start <= op < start + total widths ->
    exists (k : nat) (x : Z),
      nth_error (lastSlots start widths) k = Some x
      /\ op <= x
      /\ forall j y, (j < k)%nat -> nth_error (lastSlots start widths) j = Some y -> y < op.
Proof.
  induction widths as [|wd rest IH]; intros start op Hop.
  - cbn in Hop. lia.
  - cbn [lastSlots]. change (total (wd :: rest)) with (wd + total rest) in Hop.
    destruct (Z_le_gt_dec op (start + wd - 1)) as [Hin | Hafter].
    + exists 0%nat, (start + wd - 1). split; [reflexivity|]. split; [exact Hin|].
      intros j y Hj. lia.
    + destruct (IH (start + wd) op) as [k [x [Hnth [Hle Hbefore]]]]; [lia|].
      exists (S k), x. split; [exact Hnth|]. split; [exact Hle|].
      intros j y Hj Hy. destruct j as [|j].
      * cbn in Hy. injection Hy as <-. lia.
      * apply (Hbefore j); [lia | exact Hy].
Qed.

(** What [Commit] does with a batch that was executed and did not commit. *)
Lemma Commit_failed_run :
  forall (txn : goffkv.Txn) (b : Batch) (w w1 : World)
         (resp : consulapi.TxnResponse) (e : consulapi.TxnError)
         (rest : list consulapi.TxnError),
    Commit_build txn w = (Returned (inr b), w1) ->
    consulTxn (ops b) = TxnReturned false resp ->
    consulapi.Errors resp = e :: rest ->
    Commit txn w
    = (if toUserOpIndex (boundaries b) (consulapi.OpIndex e) <? 0
       then Panicked "txn failed on non-existing op"
       else Returned ([], Some (TxnError (toUserOpIndex (boundaries b)
                                                       (consulapi.OpIndex e)))),
       called w1 (CallTxn (ops b))).
Proof.
  intros txn b w w1 resp e rest Hbuild Hresp Herrs.
  unfold Commit. unfold bind at 1. rewrite Hbuild. go_unfold. cbn.
  rewrite Hresp, Herrs. cbn.
  destruct (toUserOpIndex (boundaries b) (consulapi.OpIndex e) <? 0); reflexivity.
Qed.

(** C1. When the batch of [Commit] is executed and does not commit, the
    slot of the first error is looked up in the boundaries: the position of
    the first boundary not below it is returned in a [TxnError], and it is a
    position in the Checks followed by the Ops; when every boundary is below
    the slot, [Commit] panics instead of returning an error. The boundaries
    are the last slots of the items laid out in that order. *)
Theorem Commit_failure_index :
  forall (txn : goffkv.Txn) (b : Batch) (w w1 : World)
         (resp : consulapi.TxnResponse) (e : consulapi.TxnError)
         (rest : list consulapi.TxnError),
    Commit_build txn w = (Returned (inr b), w1) ->
    consulTxn (ops b) = TxnReturned false resp ->
    consulapi.Errors resp = e :: rest ->
    (forall (k : nat) (x : Z),
        nth_error (boundaries b) k = Some x ->
        consulapi.OpIndex e <= x ->
        (forall j y, (j < k)%nat -> nth_error (boundaries b) j = Some y ->
                     y < consulapi.OpIndex e) ->
        Commit txn w = (Returned ([], Some (TxnError (Z.of_nat k))),
                        called w1 (CallTxn (ops b)))
        /\ (k < List.length (goffkv.Checks txn) + List.length (goffkv.Ops txn))%nat) /\
    ((forall x, In x (boundaries b) -> x < consulapi.OpIndex e) ->
     Commit txn w = (Panicked "txn failed on non-existing op",
                     called w1 (CallTxn (ops b)))) /\
    boundaries b = lastSlots 0 (itemWidths txn).
Proof.
  intros txn b w w1 resp e rest Hbuild Hresp Herrs.
  rewrite (Commit_failed_run _ _ _ _ _ _ _ Hbuild Hresp Herrs).
  destruct (Commit_build_extends _ _ _ _ Hbuild) as [_ [Hbounds _]].
  cbn [boundaries emptyBatch app ops len List.length Z.of_nat] in Hbounds.
  unfold toUserOpIndex. split; [|split].
  - intros k x Hnth Hle Hbefore.
    rewrite (toUserOpIndexFrom_found _ 0 _ k x Hnth Hle Hbefore).
    assert (Hcmp : (0 + Z.of_nat k <? 0) = false) by (apply Z.ltb_ge; lia).
    rewrite Hcmp. split; [reflexivity|].
    assert (Hk : (k < List.length (boundaries b))%nat)
      by (apply nth_error_Some; rewrite Hnth; discriminate).
    rewrite Hbounds, lastSlots_length in Hk. unfold itemWidths in Hk.
    rewrite length_app, !length_map in Hk. exact Hk.
  - intros Hall. rewrite (toUserOpIndexFrom_none _ 0 _ Hall). reflexivity.
  - exact Hbounds.
Qed.

(** A failure at a slot of the batch is always attributed to an item: the
    panic of [Commit] needs a slot outside the batch. *)
Lemma Commit_failure_in_batch :
  forall (txn : goffkv.Txn) (b : Batch) (w w1 : World)
         (resp : consulapi.TxnResponse) (e : consulapi.TxnError)
         (rest : list consulapi.TxnError),
    Commit_build txn w = (Returned (inr b), w1) ->
    consulTxn (ops b) = TxnReturned false resp ->
    consulapi.Errors resp = e :: rest ->
    0 <= consulapi.OpIndex e < len (ops b) ->
    exists k : nat,
      Commit txn w = (Returned ([], Some (TxnError (Z.of_nat k))),
                      called w1 (CallTxn (ops b)))
      /\ (k < List.length (goffkv.Checks txn) + List.length (goffkv.Ops txn))%nat.
Proof.
  intros txn b w w1 resp e rest Hbuild Hresp Herrs Hslot.
  rewrite (Commit_failed_run _ _ _ _ _ _ _ Hbuild Hresp Herrs).
  destruct (Commit_build_extends _ _ _ _ Hbuild) as [Hlen [Hbounds _]].
  cbn [boundaries emptyBatch app ops len List.length Z.of_nat] in Hbounds, Hlen.
  destruct (lastSlots_covers (itemWidths txn) 0 (consulapi.OpIndex e))
    as [k [x [Hnth [Hle Hbefore]]]]; [lia|].
  rewrite <- Hbounds in Hnth, Hbefore.
  exists k. unfold toUserOpIndex.
  rewrite (toUserOpIndexFrom_found _ 0 _ k x Hnth Hle Hbefore).
  assert (Hcmp : (0 + Z.of_nat k <? 0) = false) by (apply Z.ltb_ge; lia).
  rewrite Hcmp. split; [reflexivity|].
  assert (Hk : (k < List.length (boundaries b))%nat)
    by (apply nth_error_Some; rewrite Hnth; discriminate).
  rewrite Hbounds, lastSlots_length in Hk. unfold itemWidths in Hk.
  rewrite length_app, !length_map in Hk. exact Hk.
Qed.

(** ** What the methods keep of the world *)

Lemma keeps_refl : forall w : World, keeps w w.
Proof.
  intros w. unfold keeps. repeat apply conj; auto.
  exists []. now rewrite app_nil_r.
Qed.

Lemma keeps_trans :
  forall w1 w2 w3 : World, keeps w1 w2 -> keeps w2 w3 -> keeps w1 w3.
Proof.
  intros w1 w2 w3 [Hp1 [[c1 Hj1] [Hs1 Hc1]]] [Hp2 [[c2 Hj2] [Hs2 Hc2]]].
  unfold keeps. repeat apply conj.
  - congruence.
  - exists (c1 ++ c2). rewrite Hj2, Hj1, app_assoc. reflexivity.
  - intros Hsid. specialize (Hs1 Hsid). rewrite Hs1 in Hs2. exact (Hs2 Hsid).
  - auto.
Qed.

Lemma Keeps_ret : forall (A : Type) (a : A), Keeps (ret a).
Proof. intros A a w. apply keeps_refl. Qed.

Lemma Keeps_panic : forall (A : Type) (msg : string), Keeps (@panic A msg).
Proof. intros A msg w. apply keeps_refl. Qed.

Lemma Keeps_getClient : Keeps getClient.
Proof. intros w. apply keeps_refl. Qed.

Lemma Keeps_logCall : forall call : Call, Keeps (logCall call).
Proof.
  intros call w. unfold keeps. cbn. repeat apply conj; auto. now exists [call].
Qed.

Lemma Keeps_bind :
  forall (A B : Type) (m : M A) (k : A -> M B),
    Keeps m -> (forall a, Keeps (k a)) -> Keeps (bind m k).
Proof.
  intros A B m k Hm Hk w. unfold bind. specialize (Hm w).
  destruct (m w) as [[a | msg] w1]; cbn [snd] in *; [|exact Hm].
  exact (keeps_trans _ _ _ Hm (Hk a w1)).
Qed.

Lemma Keeps_getOrCreateSessionId : Keeps getOrCreateSessionId.
Proof.
  intros w. unfold getOrCreateSessionId, session_Create. go_unfold.
  destruct (String.eqb (sessionId (client w)) "") eqn:Hsid; cbn;
    [|apply keeps_refl].
  apply String.eqb_eq in Hsid.
  destruct sessionCreate as [err | sid]; cbn; unfold keeps; cbn;
    (repeat apply conj; [reflexivity | now exists [CallSessionCreate]
                        | intros Hne; now elim Hne | try discriminate; auto]).
Qed.

Ltac keeps_go :=
  repeat first
    [ apply Keeps_ret
    | apply Keeps_panic
    | apply Keeps_logCall
    | apply Keeps_getClient
    | apply Keeps_getOrCreateSessionId
    | apply Keeps_bind; [|intros ?]
    | progress cbv zeta
    | match goal with
      | |- Keeps (match ?x with _ => _ end) => destruct x
      end ].

Lemma Keeps_collectChildren :
  forall (results : list consulapi.KVPair) (nPrefix nGlobalPrefix : Z)
         (children : list string),
    Keeps (collectChildren results nPrefix nGlobalPrefix children).
Proof.
  induction results as [|r rest IH]; intros nPrefix nGlobalPrefix children;
    cbn [collectChildren]; keeps_go; apply IH.
Qed.

Lemma Keeps_Commit_answer :
  forall (results : list consulapi.KVPair) (kinds : list resultKind) (i : Z)
         (answer : list goffkv.TxnOpResult),
    Keeps (Commit_answer results kinds i answer).
Proof.
  induction results as [|r rest IH]; intros kinds i answer;
    cbn [Commit_answer]; unfold at_; keeps_go; apply IH.
Qed.

Lemma Keeps_Commit_ops :
  forall (items : list goffkv.TxnOp) (b : Batch), Keeps (Commit_ops items b).
Proof.
  induction items as [|op rest IH]; intros b; cbn [Commit_ops]; unfold Commit_op;
    keeps_go; apply IH.
Qed.

(** X1. Every method but [Close] keeps the mount prefix, only adds to the
    calls sent to the store, leaves a session that exists as it is (id and
    stop channel), and never closes the stop channel. *)
Theorem methods_keep_world :
  (forall key value lease, Keeps (Create key value lease)) /\
  (forall key value, Keeps (Set_ key value)) /\
  (forall key value ver, Keeps (Cas key value ver)) /\
  (forall key ver, Keeps (Erase key ver)) /\
  (forall key watch, Keeps (Exists key watch)) /\
  (forall key watch, Keeps (Get key watch)) /\
  (forall key watch, Keeps (Children key watch)) /\
  (forall txn, Keeps (Commit txn)).
Proof.
  assert (HCreate : forall key value lease, Keeps (Create key value lease)).
  { intros key value lease. unfold Create, txn_Txn, lastOf, firstOf. keeps_go. }
  repeat apply conj.
  - exact HCreate.
  - intros key value. unfold Set_, txn_Txn, lastOf, firstOf. keeps_go.
  - intros key value ver. unfold Cas, txn_Txn, lastOf, firstOf. keeps_go.
    apply HCreate.
  - intros key ver. unfold Erase, txn_Txn, lastOf, firstOf. keeps_go.
  - intros key watch. unfold Exists, kv_Get. keeps_go.
  - intros key watch. unfold Get, kv_Get. keeps_go.
  - intros key watch. unfold Children, txn_Txn. keeps_go.
    apply Keeps_collectChildren.
  - intros txn. unfold Commit, Commit_build, txn_Txn, firstOf. keeps_go.
    + apply Keeps_Commit_ops.
    + apply Keeps_Commit_answer.
Qed.

(** ** The session *)

(** X2. The session is created once and then reused: the first call of
    [getOrCreateSessionId] on a driver without session asks the store, caches
    the id and opens the stop channel; with a cached id a call returns it and
    changes nothing; so two calls in a row ask the store once. When the store
    refuses, nothing is cached and the error is the store's. *)
Theorem session_created_once :
  forall w : World,
    (sessionId (client w) <> ""%string ->
     getOrCreateSessionId w = (Returned (sessionId (client w), None), w)) /\
    (forall sid,
        sessionId (client w) = ""%string ->
        sessionCreate = inr sid ->
        let w1 := {| client := {| prefixSegments := prefixSegments (client w);
                                  sessionId := sid;
                                  sessionRenewDoneCh := ChanOpen |};
                     journal := journal w ++ [CallSessionCreate] |} in
        getOrCreateSessionId w = (Returned (sid, None), w1) /\
        (sid <> ""%string ->
         (_ <- getOrCreateSessionId ;; getOrCreateSessionId) w
         = (Returned (sid, None), w1))) /\
    (forall err,
        sessionId (client w) = ""%string ->
        sessionCreate = inl err ->
        getOrCreateSessionId w
        = (Returned (""%string, Some (ErrTransport err)), called w CallSessionCreate)).
Proof.
  intros w.
  assert (Hcached : forall w0 : World,
             sessionId (client w0) <> ""%string ->
             getOrCreateSessionId w0 = (Returned (sessionId (client w0), None), w0)).
  { intros w0 Hsid. apply String.eqb_neq in Hsid.
    unfold getOrCreateSessionId. go_unfold. rewrite Hsid. reflexivity. }
  split; [apply Hcached|]. split.
  - intros sid Hsid Hcreate w1.
    assert (Hfirst : getOrCreateSessionId w = (Returned (sid, None), w1)).
    { unfold getOrCreateSessionId, session_Create. go_unfold.
      rewrite Hsid, Hcreate. reflexivity. }
    split; [exact Hfirst|].
    intros Hne. unfold bind. rewrite Hfirst. apply (Hcached w1). exact Hne.
  - intros err Hsid Hcreate.
    unfold getOrCreateSessionId, session_Create. go_unfold.
    rewrite Hsid, Hcreate. reflexivity.
Qed.

(** X3. A leased [Create] on a driver without session first creates the
    session and then sends the parent checks, the check-not-exists and the
    lock under the new session id; with a session it sends just that batch,
    under the cached id; and when the session cannot be created it returns
    the store's error and sends no batch. *)
Theorem Create_leased_session :
  forall (key : string) (value : list byte) (segments : list string) (w : World),
    DisassembleKey key = inr segments ->
    let path := assemblePath (client w) segments in
    let batch := fun sid =>
      maybeGetParent (client w) segments
        ++ [opCheckNotExists path; opLock path value sid] in
    (sessionId (client w) <> ""%string ->
     snd (Create key value true w)
     = called w (CallTxn (batch (sessionId (client w))))) /\
    (forall sid,
        sessionId (client w) = ""%string ->
        sessionCreate = inr sid ->
        journal (snd (Create key value true w))
        = journal w ++ [CallSessionCreate; CallTxn (batch sid)]
        /\ sessionId (client (snd (Create key value true w))) = sid
        /\ sessionRenewDoneCh (client (snd (Create key value true w))) = ChanOpen) /\
    (forall err,
        sessionId (client w) = ""%string ->
        sessionCreate = inl err ->
        Create key value true w
        = (Returned (0%N, Some (ErrTransport err)), called w CallSessionCreate)).
Proof.
  intros key value segments w Hkey path batch.
  assert (Hb : forall x y, (maybeGetParent (client w) segments ++ [x]) ++ [y]
                           = maybeGetParent (client w) segments ++ [x; y])
    by (intros x y; rewrite <- app_assoc; reflexivity).
  unfold Create. rewrite Hkey.
  unfold getOrCreateSessionId, session_Create. go_unfold. cbn [negb].
  fold path. split; [|split].
  - intros Hsid. apply String.eqb_neq in Hsid. rewrite Hsid. cbn [negb].
    rewrite Hb. fold (batch (sessionId (client w))).
    destruct (consulTxn _) as [msg | [|] resp]; cbn; try reflexivity.
    + destruct (rev (consulapi.Results resp)); reflexivity.
    + destruct (consulapi.Errors resp) as [|e rest]; cbn; [reflexivity|].
      destruct (_ <? _); [reflexivity|]. destruct (_ =? _); reflexivity.
  - intros sid Hsid Hcreate. rewrite Hsid, Hcreate. cbn [String.eqb negb].
    rewrite Hb. fold (batch sid). cbn [client journal].
    destruct (consulTxn _) as [msg | [|] resp]; cbn.
    + rewrite <- app_assoc. repeat split.
    + destruct (rev (consulapi.Results resp)); cbn; rewrite <- app_assoc; repeat split.
    + destruct (consulapi.Errors resp) as [|e rest]; cbn;
        [rewrite <- app_assoc; repeat split|].
      destruct (_ <? _); [cbn; rewrite <- app_assoc; repeat split|].
      destruct (_ =? _); cbn; rewrite <- app_assoc; repeat split.
  - intros err Hsid Hcreate. rewrite Hsid, Hcreate. reflexivity.
Qed.

(** ** Malformed keys *)

(** X4. A key the validator rejects never reaches the store: every single-key
    method returns the validator's error and leaves the world as it was. *)
Theorem malformed_key_is_local :
  forall (key msg : string) (w : World),
    DisassembleKey key = inl msg ->
    (forall value lease,
        Create key value lease w = (Returned (0%N, Some (ErrInvalidKey msg)), w)) /\
    (forall value, Set_ key value w = (Returned (0%N, Some (ErrInvalidKey msg)), w)) /\
    (forall value ver,
        Cas key value ver w = (Returned (0%N, Some (ErrInvalidKey msg)), w)) /\
    (forall ver, Erase key ver w = (Returned (Some (ErrInvalidKey msg)), w)) /\
    (forall watch,
        Exists key watch w = (Returned (0%N, None, Some (ErrInvalidKey msg)), w)) /\
    (forall watch,
        Get key watch w = (Returned (0%N, [], None, Some (ErrInvalidKey msg)), w)) /\
    (forall watch,
        Children key watch w = (Returned ([], None, Some (ErrInvalidKey msg)), w)).
Proof.
  intros key msg w Hkey.
  unfold Create, Set_, Cas, Erase, Exists, Get, Children. rewrite Hkey.
  repeat apply conj; intros; try reflexivity.
  destruct (ver =? 0)%N; [|reflexivity].
  unfold Create. rewrite Hkey. reflexivity.
Qed.

(** ** The batch builder of [Commit]: what it sends and when it stops *)

Lemma onlySessionCalls_refl : forall w : World, onlySessionCalls w w.
Proof. intros w. exists []. split; [now rewrite app_nil_r | constructor]. Qed.

Lemma onlySessionCalls_trans :
  forall w1 w2 w3 : World,
    onlySessionCalls w1 w2 -> onlySessionCalls w2 w3 -> onlySessionCalls w1 w3.
Proof.
  intros w1 w2 w3 [c1 [Hj1 Hc1]] [c2 [Hj2 Hc2]]. exists (c1 ++ c2). split.
  - rewrite Hj2, Hj1, app_assoc. reflexivity.
  - apply Forall_app. now split.
Qed.

(** [getOrCreateSessionId] returns, and calls the store for a session at most. *)
Lemma getOrCreateSessionId_returns :
  forall w : World,
    exists r w', getOrCreateSessionId w = (Returned r, w') /\ onlySessionCalls w w'.
Proof.
  intros w. unfold getOrCreateSessionId, session_Create. go_unfold.
  destruct (negb (String.eqb (sessionId (client w)) "")).
  - eexists. eexists. split; [reflexivity | apply onlySessionCalls_refl].
  - destruct sessionCreate as [err | sid]; eexists; eexists;
      (split; [reflexivity|]); exists [CallSessionCreate];
      (split; [reflexivity | repeat constructor]).
Qed.

Lemma Commit_op_returns :
  forall (op : goffkv.TxnOp) (segments : list string) (b : Batch) (w : World),
    exists r w', Commit_op op segments b w = (Returned r, w') /\ onlySessionCalls w w'.
Proof.
  intros op segments b w. unfold Commit_op, bind, getClient, ret.
  destruct (goffkv.What op);
    try (eexists; eexists; split; [reflexivity | apply onlySessionCalls_refl]).
  destruct (goffkv.Lease op);
    [|eexists; eexists; split; [reflexivity | apply onlySessionCalls_refl]].
  destruct (getOrCreateSessionId_returns w) as [[sid [err|]] [w' [Hrun Hcalls]]];
    rewrite Hrun; eexists; eexists; (split; [reflexivity | exact Hcalls]).
Qed.

(** The second loop of [Commit] returns, and calls the store for a session at
    most. *)
Lemma Commit_ops_returns :
  forall (items : list goffkv.TxnOp) (b : Batch) (w : World),
    exists r w', Commit_ops items b w = (Returned r, w') /\ onlySessionCalls w w'.
Proof.
  induction items as [|op rest IH]; intros b w; cbn [Commit_ops].
  - eexists. eexists. split; [reflexivity | apply onlySessionCalls_refl].
  - destruct (DisassembleKey (goffkv.Key op)) as [err | segments].
    + eexists. eexists. split; [reflexivity | apply onlySessionCalls_refl].
    + unfold bind.
      destruct (Commit_op_returns op segments b w) as [r [w1 [Hrun Hcalls]]].
      rewrite Hrun. destruct r as [err | [ops1 rks1]].
      * eexists. eexists. split; [reflexivity | exact Hcalls].
      * destruct (IH {| ops := ops1;
                        boundaries := boundaries b ++ [len ops1 - 1];
                        rks := rks1 |} w1) as [r [w2 [Hrest Hcalls2]]].
        rewrite Hrest. eexists. eexists.
        split; [reflexivity | exact (onlySessionCalls_trans _ _ _ Hcalls Hcalls2)].
Qed.

Lemma Commit_checks_malformed :
  forall (c : consulClient) (checks : list goffkv.TxnCheck) (b : Batch),
    List.Exists (fun check => exists msg, DisassembleKey (goffkv.checkKey check) = inl msg)
                checks ->
    exists msg, Commit_checks c checks b = inl (ErrInvalidKey msg).
Proof.
  intros c checks. induction checks as [|check rest IH]; intros b Hbad.
  - inversion Hbad.
  - cbn [Commit_checks].
    destruct (DisassembleKey (goffkv.checkKey check)) as [err | segments] eqn:Hkey.
    + now exists err.
    + apply IH. inversion Hbad as [? ? [msg Hmsg] | ? ? Hrest]; subst; [congruence | exact Hrest].
Qed.

Lemma Commit_ops_malformed :
  forall (items : list goffkv.TxnOp) (b : Batch) (w w' : World)
         (r : goffkv.error + Batch),
    List.Exists (fun op => exists msg, DisassembleKey (goffkv.Key op) = inl msg) items ->
    Commit_ops items b w = (Returned r, w') ->
    exists err, r = inl err.
Proof.
  induction items as [|op rest IH]; intros b w w' r Hbad Hrun.
  - inversion Hbad.
  - cbn [Commit_ops] in Hrun.
    destruct (DisassembleKey (goffkv.Key op)) as [err | segments] eqn:Hkey.
    + unfold ret in Hrun. injection Hrun as <- _. now exists (ErrInvalidKey err).
    + unfold bind in Hrun.
      destruct (Commit_op op segments b w) as [[[err | [ops1 rks1]] | msg] w1];
        [unfold ret in Hrun; injection Hrun as <- _; now exists err | | discriminate].
      eapply IH; [|exact Hrun].
      inversion Hbad as [? ? [msg Hmsg] | ? ? Hrest]; subst; [congruence | exact Hrest].
Qed.

(** X5. [Commit] sends a transaction only when every key of the Txn passed
    the validator. With a rejected key among the Checks it returns the
    validator's error and leaves the world as it was; with a rejected key
    among the Ops it returns an error, and the only calls it may have made
    are session creations for leased creates before that key. *)
Theorem Commit_malformed_key :
  forall (txn : goffkv.Txn) (w : World),
    (List.Exists (fun check => exists msg, DisassembleKey (goffkv.checkKey check) = inl msg)
                 (goffkv.Checks txn) ->
     exists msg, Commit txn w = (Returned ([], Some (ErrInvalidKey msg)), w)) /\
    (List.Exists (fun op => exists msg, DisassembleKey (goffkv.Key op) = inl msg)
                 (goffkv.Ops txn) ->
     exists err w', Commit txn w = (Returned ([], Some err), w')
                    /\ onlySessionCalls w w').
Proof.
  intros txn w. unfold Commit, Commit_build. split.
  - intros Hbad.
    destruct (Commit_checks_malformed (client w) _ emptyBatch Hbad) as [msg Hmsg].
    exists msg. go_unfold. rewrite Hmsg. reflexivity.
  - intros Hbad. unfold bind at 1. unfold bind at 1. unfold getClient at 1.
    destruct (Commit_checks (client w) (goffkv.Checks txn) emptyBatch) as [err | b0].
    + exists err, w. split; [reflexivity | apply onlySessionCalls_refl].
    + destruct (Commit_ops_returns (goffkv.Ops txn) b0 w) as [r [w' [Hrun Hcalls]]].
      rewrite Hrun.
      destruct (Commit_ops_malformed _ _ _ _ _ Hbad Hrun) as [err ->].
      exists err, w'. split; [reflexivity | exact Hcalls].
Qed.

Lemma skipn_nth_error :
  forall (A : Type) (l : list A) (n : nat) (x : A),
    nth_error l n = Some x -> skipn n l = x :: skipn (S n) l.
Proof.
  induction l as [|y l IH]; intros n x Hnth; destruct n as [|n]; try discriminate.
  - cbn in Hnth. injection Hnth as ->. reflexivity.
  - cbn in Hnth. cbn [skipn]. rewrite (IH n x Hnth). reflexivity.
Qed.

Lemma at_nat :
  forall (A : Type) (xs : list A) (n : nat) (w : World),
    at_ xs (Z.of_nat n) w
    = match nth_error xs n with
      | Some x => (Returned x, w)
      | None => (Panicked "index out of range", w)
      end.
Proof.
  intros A xs n w. unfold at_.
  assert (Hcmp : (Z.of_nat n <? 0) = false) by (apply Z.ltb_ge; lia).
  rewrite Hcmp, Nat2Z.id. destruct (nth_error xs n); reflexivity.
Qed.

(** The answer loop with enough result kinds: no panic, and the answer read
    off the results and the kinds side by side. *)
Lemma Commit_answer_run :
  forall (results : list consulapi.KVPair) (kinds : list resultKind) (n : nat)
         (answer : list goffkv.TxnOpResult) (w : World),
    (List.length results + n <= List.length kinds)%nat ->
    Commit_answer results kinds (Z.of_nat n) answer w
    = (Returned (answer ++ answerOf results (skipn n kinds)), w).
Proof.
  induction results as [|r rest IH]; intros kinds n answer w Hlen.
  - cbn. unfold ret. destruct (skipn n kinds); now rewrite app_nil_r.
  - cbn [Commit_answer]. unfold bind. rewrite at_nat.
    cbn [List.length] in Hlen.
    destruct (nth_error kinds n) as [rk|] eqn:Hnth;
      [|apply nth_error_None in Hnth; lia].
    rewrite (skipn_nth_error _ _ _ _ Hnth).
    replace (Z.of_nat n + 1) with (Z.of_nat (S n)) by lia.
    destruct rk; rewrite IH by lia; cbn [answerOf];
      try rewrite <- app_assoc; reflexivity.
Qed.

(** The answer loop with more results than result kinds: the index runs out. *)
Lemma Commit_answer_overrun :
  forall (results : list consulapi.KVPair) (kinds : list resultKind) (n : nat)
         (answer : list goffkv.TxnOpResult) (w : World),
    (n <= List.length kinds < List.length results + n)%nat ->
    Commit_answer results kinds (Z.of_nat n) answer w
    = (Panicked "index out of range", w).
Proof.
  induction results as [|r rest IH]; intros kinds n answer w Hlen.
  - cbn in Hlen. lia.
  - cbn [Commit_answer]. unfold bind. rewrite at_nat.
    cbn [List.length] in Hlen.
    destruct (nth_error kinds n) as [rk|] eqn:Hnth; [|reflexivity].
    assert (Hn : (n < List.length kinds)%nat)
      by (apply nth_error_Some; rewrite Hnth; discriminate).
    replace (Z.of_nat n + 1) with (Z.of_nat (S n)) by lia.
    destruct rk; apply IH; lia.
Qed.

Lemma Commit_answer_world :
  forall (results : list consulapi.KVPair) (kinds : list resultKind)
         (answer : list goffkv.TxnOpResult) (w : World),
    snd (Commit_answer results kinds 0 answer w) = w.
Proof.
  intros results kinds answer w. change 0 with (Z.of_nat 0).
  destruct (le_lt_dec (List.length results + 0) (List.length kinds)) as [Hle | Hlt].
  - now rewrite Commit_answer_run.
  - rewrite Commit_answer_overrun; [reflexivity | lia].
Qed.

Lemma Commit_ops_no_lease :
  forall (items : list goffkv.TxnOp) (b : Batch) (w : World),
    Forall (fun op => leasedCreate op = false) items ->
    exists r, Commit_ops items b w = (Returned r, w).
Proof.
  induction items as [|op rest IH]; intros b w Hall; cbn [Commit_ops].
  - eexists. reflexivity.
  - inversion Hall as [|? ? Hop Hrest]; subst.
    destruct (DisassembleKey (goffkv.Key op)) as [err | segments];
      [eexists; reflexivity|].
    unfold bind, Commit_op, getClient, ret. unfold leasedCreate in Hop.
    destruct (goffkv.What op); try rewrite Hop; apply IH; exact Hrest.
Qed.

(** X6. A Txn without leased create never touches the session: its batch is
    built without any call to the store and without any change to the
    driver, so the one call [Commit] makes is the transaction. *)
Theorem Commit_without_lease :
  forall (txn : goffkv.Txn) (w : World),
    Forall (fun op => leasedCreate op = false) (goffkv.Ops txn) ->
    (exists r, Commit_build txn w = (Returned r, w)) /\
    (forall b, Commit_build txn w = (Returned (inr b), w) ->
               snd (Commit txn w) = called w (CallTxn (ops b))).
Proof.
  intros txn w Hall. split.
  - unfold Commit_build, bind, getClient.
    destruct (Commit_checks (client w) (goffkv.Checks txn) emptyBatch) as [err | b0].
    + eexists. reflexivity.
    + exact (Commit_ops_no_lease _ b0 w Hall).
  - intros b Hbuild. unfold Commit. unfold bind at 1. rewrite Hbuild.
    unfold txn_Txn, firstOf. go_unfold. cbn.
    destruct (consulTxn (ops b)) as [msg | [|] resp]; cbn; try reflexivity.
    + pose proof (Commit_answer_world (consulapi.Results resp) (rks b) []
                    {| client := client w; journal := journal w ++ [CallTxn (ops b)] |})
        as Hw.
      destruct (Commit_answer _ _ _ _ _) as [[answer | msg] w2]; cbn in *;
        now subst w2.
    + destruct (consulapi.Errors resp); cbn; [reflexivity|].
      destruct (_ <? _); reflexivity.
Qed.

(** ** The answer of a committed [Commit] *)

Lemma answerOf_kinds :
  forall (kinds : list resultKind) (results : list consulapi.KVPair),
    List.length results = List.length kinds ->
    map goffkv.resWhat (answerOf results kinds) = flat_map answeredAs kinds.
Proof.
  induction kinds as [|rk kinds IH]; intros results Hlen;
    destruct results as [|r results]; try discriminate; [reflexivity|].
  cbn in Hlen. injection Hlen as Hlen.
  destruct rk; cbn; rewrite (IH results Hlen); reflexivity.
Qed.

Lemma Commit_checks_kinds :
  forall (c : consulClient) (checks : list goffkv.TxnCheck) (b b' : Batch),
    Commit_checks c checks b = inr b' ->
    flat_map answeredAs (rks b') = flat_map answeredAs (rks b).
Proof.
  intros c checks. induction checks as [|check rest IH]; intros b b' Hrun.
  - cbn in Hrun. now injection Hrun as <-.
  - cbn [Commit_checks] in Hrun.
    destruct (DisassembleKey (goffkv.checkKey check)); [discriminate|].
    rewrite (IH _ _ Hrun). cbn [rks]. rewrite flat_map_app. cbn. now rewrite app_nil_r.
Qed.

Lemma flat_map_aux :
  forall (A : Type) (l : list A), flat_map answeredAs (map (fun _ => rkAux) l) = [].
Proof. induction l as [|x l IH]; [reflexivity | exact IH]. Qed.

Lemma Commit_ops_kinds :
  forall (items : list goffkv.TxnOp) (b b' : Batch) (w w' : World),
    Commit_ops items b w = (Returned (inr b'), w') ->
    flat_map answeredAs (rks b')
    = flat_map answeredAs (rks b) ++ flat_map answeredKind items.
Proof.
  induction items as [|op rest IH]; intros b b' w w' Hrun.
  - cbn in Hrun. unfold ret in Hrun. injection Hrun as <- _. cbn. now rewrite app_nil_r.
  - cbn [Commit_ops] in Hrun.
    destruct (DisassembleKey (goffkv.Key op)) as [err | segments];
      [unfold ret in Hrun; discriminate|].
    unfold bind in Hrun.
    destruct (Commit_op op segments b w) as [[[err | [ops1 rks1]] | msg] w1] eqn:Hop;
      try (unfold ret in Hrun; discriminate).
    rewrite (IH _ _ _ _ Hrun). cbn [rks flat_map]. rewrite app_assoc. f_equal.
    unfold Commit_op, bind, getClient, ret in Hop. unfold answeredKind.
    destruct (goffkv.What op).
    + destruct (goffkv.Lease op).
      * destruct (getOrCreateSessionId w) as [[[sid [err|]] | msg] w2]; try discriminate.
        injection Hop as _ <- _. rewrite !flat_map_app, flat_map_aux, app_nil_r.
        reflexivity.
      * injection Hop as _ <- _. rewrite !flat_map_app, flat_map_aux, app_nil_r.
        reflexivity.
    + injection Hop as _ <- _. rewrite !flat_map_app. cbn. now rewrite !app_nil_r.
    + injection Hop as _ <- _. rewrite !flat_map_app. cbn. now rewrite !app_nil_r.
    + injection Hop as _ <- _. now rewrite app_nil_r.
Qed.

(** X7. When the batch of [Commit] commits with no more results than result
    kinds, [Commit] answers with the results tagged Create or Set, each with
    the modify index of its result; and when the store returns one result
    per result kind, the answer has one entry for each Create and each Set of
    [txn.Ops], in their order and with their kind, and none for Checks,
    Erases or other items. *)
Theorem Commit_answers :
  forall (txn : goffkv.Txn) (b : Batch) (w w1 : World) (resp : consulapi.TxnResponse),
    Commit_build txn w = (Returned (inr b), w1) ->
    consulTxn (ops b) = TxnReturned true resp ->
    (List.length (consulapi.Results resp) <= List.length (rks b))%nat ->
    Commit txn w = (Returned (answerOf (consulapi.Results resp) (rks b), None),
                    called w1 (CallTxn (ops b))) /\
    (List.length (consulapi.Results resp) = List.length (rks b) ->
     map goffkv.resWhat (answerOf (consulapi.Results resp) (rks b))
     = flat_map answeredKind (goffkv.Ops txn)).
Proof.
  intros txn b w w1 resp Hbuild Hresp Hlen. split.
  - unfold Commit. unfold bind at 1. rewrite Hbuild. unfold txn_Txn. go_unfold. cbn.
    rewrite Hresp. change 0 with (Z.of_nat 0).
    rewrite Commit_answer_run by lia. reflexivity.
  - intros Heq. rewrite (answerOf_kinds _ _ Heq).
    unfold Commit_build, bind, getClient in Hbuild.
    destruct (Commit_checks (client w) (goffkv.Checks txn) emptyBatch) as [err | b0] eqn:Hc;
      [unfold ret in Hbuild; discriminate|].
    rewrite (Commit_ops_kinds _ _ _ _ _ Hbuild), (Commit_checks_kinds _ _ _ _ Hc).
    reflexivity.
Qed.

(** X8. When the batch of [Commit] commits with more results than result
    kinds, [Commit] panics on the index that runs out of the result kinds. *)
Theorem Commit_too_many_results :
  forall (txn : goffkv.Txn) (b : Batch) (w w1 : World) (resp : consulapi.TxnResponse),
    Commit_build txn w = (Returned (inr b), w1) ->
    consulTxn (ops b) = TxnReturned true resp ->
    (List.length (rks b) < List.length (consulapi.Results resp))%nat ->
    Commit txn w = (Panicked "index out of range", called w1 (CallTxn (ops b))).
Proof.
  intros txn b w w1 resp Hbuild Hresp Hlen.
  unfold Commit. unfold bind at 1. rewrite Hbuild. unfold txn_Txn. go_unfold. cbn.
  rewrite Hresp. change 0 with (Z.of_nat 0).
  rewrite Commit_answer_overrun by lia. reflexivity.
Qed.

(** ** Round trip of a child's path *)

Lemma str_append_assoc :
  forall s1 s2 s3 : string,
    String.append (String.append s1 s2) s3 = String.append s1 (String.append s2 s3).
Proof.
  induction s1 as [|a s1 IH]; intros s2 s3; cbn; [reflexivity | now rewrite IH].
Qed.

Lemma str_length_append :
  forall s1 s2 : string,
    String.length (String.append s1 s2) = (String.length s1 + String.length s2)%nat.
Proof.
  induction s1 as [|a s1 IH]; intros s2; cbn; [reflexivity | now rewrite IH].
Qed.

Lemma get_append_here :
  forall (s1 s2 : string) (a : ascii),
    String.get (String.length s1) (String.append s1 (String a s2)) = Some a.
Proof.
  induction s1 as [|b s1 IH]; intros s2 a; cbn; [reflexivity | apply IH].
Qed.

Lemma strFrom_append :
  forall s1 s2 : string, strFrom (String.length s1) (String.append s1 s2) = s2.
Proof.
  induction s1 as [|a s1 IH]; intros s2; cbn; [reflexivity | apply IH].
Qed.

Lemma LastIndexByte_slashFree :
  forall s : string, slashFree s = true -> LastIndexByte s "/" = -1.
Proof.
  induction s as [|a s IH]; intros Hfree; [reflexivity|].
  cbn in Hfree. apply andb_true_iff in Hfree. destruct Hfree as [Ha Hs].
  cbn [LastIndexByte]. rewrite (IH Hs). cbn [Z.leb Z.compare].
  apply negb_true_iff in Ha. now rewrite Ha.
Qed.

(** The last "/" of a path that ends in "/" and a slash-free name is the one
    before the name. *)
Lemma LastIndexByte_before_name :
  forall s name : string,
    slashFree name = true ->
    LastIndexByte (String.append s (String "/" name)) "/" = Z.of_nat (String.length s).
Proof.
  induction s as [|a s IH]; intros name Hfree.
  - cbn [String.append LastIndexByte]. rewrite (LastIndexByte_slashFree _ Hfree).
    reflexivity.
  - cbn [String.append LastIndexByte String.length]. rewrite (IH name Hfree).
    assert (Hcmp : (0 <=? Z.of_nat (String.length s)) = true) by (apply Z.leb_le; lia).
    rewrite Hcmp. lia.
Qed.

(** [strings.Join] of two non-empty lists of segments. *)
Lemma concat_app :
  forall (sep : string) (l1 l2 : list string),
    l1 <> [] -> l2 <> [] ->
    String.concat sep (l1 ++ l2)
    = String.append (String.concat sep l1) (String.append sep (String.concat sep l2)).
Proof.
  intros sep l1 l2 H1 H2. induction l1 as [|x l1 IH]; [now elim H1|].
  destruct l1 as [|y l1].
  - destruct l2 as [|z l2]; [now elim H2 | reflexivity].
  - change (String.concat sep ((x :: y :: l1) ++ l2))
      with (String.append x (String.append sep (String.concat sep ((y :: l1) ++ l2)))).
    rewrite IH by discriminate.
    change (String.concat sep (x :: y :: l1))
      with (String.append x (String.append sep (String.concat sep (y :: l1)))).
    now rewrite !str_append_assoc.
Qed.

(** X9. Round trip of a direct child: for a key of segments [parent] and a
    slash-free [name], the path assembled for [parent ++ [name]] is detached,
    with the prefix lengths [Children] uses for [parent], to the child's key
    "/" followed by its segments joined with "/"; and the path assembled for
    anything below that child is detached to the empty string. The mount
    prefix is empty or joins to a non-empty string. *)
Theorem detachChild_of_assembled :
  forall (c : consulClient) (parent : list string) (name : string),
    parent <> [] ->
    slashFree name = true ->
    (prefixSegments c = [] \/ String.concat "/" (prefixSegments c) <> ""%string) ->
    let nPrefix := Z.of_nat (String.length (String.append (assemblePath c parent) "/")) in
    let nGlobalPrefix := Z.of_nat (String.length (assemblePath c [])) in
    detachChild (assemblePath c (parent ++ [name])) nPrefix nGlobalPrefix
    = Returned (String.append "/" (String.concat "/" (parent ++ [name]))) /\
    forall (below : string) (deeper : list string),
      detachChild (assemblePath c (parent ++ name :: below :: deeper)) nPrefix nGlobalPrefix
      = Returned ""%string.
Proof.
  intros c parent name Hparent Hfree Hmount nPrefix nGlobalPrefix.
  assert (Hps : prefixSegments c ++ parent <> [])
    by (intros Heq; apply app_eq_nil in Heq; now destruct Heq).
  assert (HnPrefix : nPrefix = Z.of_nat (String.length (assemblePath c parent)) + 1).
  { unfold nPrefix. rewrite str_length_append. cbn. lia. }
  split.
  - assert (Hpath : assemblePath c (parent ++ [name])
                    = String.append (assemblePath c parent) (String "/" name)).
    { unfold assemblePath.
      rewrite app_assoc, (concat_app "/" (prefixSegments c ++ parent) [name] Hps)
        by discriminate.
      reflexivity. }
    unfold detachChild. rewrite Hpath at 1.
    rewrite (LastIndexByte_before_name _ _ Hfree).
    assert (Hcmp : (nPrefix <=? Z.of_nat (String.length (assemblePath c parent))) = false)
      by (apply Z.leb_gt; lia).
    rewrite Hcmp. unfold nGlobalPrefix, assemblePath.
    destruct Hmount as [Hroot | Hmount].
    + rewrite Hroot. reflexivity.
    + rewrite app_nil_r.
      assert (Hne : prefixSegments c <> []) by (intros Heq; rewrite Heq in Hmount; now apply Hmount).
      assert (Hlen : (0 < String.length (String.concat "/" (prefixSegments c)))%nat).
      { destruct (String.concat "/" (prefixSegments c)); [now elim Hmount | cbn; lia]. }
      assert (Hz : (Z.of_nat (String.length (String.concat "/" (prefixSegments c))) =? 0) = false)
        by (apply Z.eqb_neq; lia).
      rewrite Hz.
      rewrite (concat_app "/" (prefixSegments c) (parent ++ [name]) Hne)
        by (intros Heq; apply app_eq_nil in Heq; now destruct Heq).
      unfold sliceFrom. rewrite str_length_append.
      assert (Hin : ((Z.of_nat (String.length (String.concat "/" (prefixSegments c))) <? 0)
                     || (Z.of_nat (String.length (String.concat "/" (prefixSegments c))
                                   + String.length (String.append "/"
                                                      (String.concat "/" (parent ++ [name]))))
                         <? Z.of_nat (String.length (String.concat "/" (prefixSegments c)))))
                    = false).
      { apply orb_false_iff. split; apply Z.ltb_ge; lia. }
      rewrite Hin, Nat2Z.id, strFrom_append. reflexivity.
  - intros below deeper.
    assert (Hpath : assemblePath c (parent ++ name :: below :: deeper)
                    = String.append (assemblePath c (parent ++ [name]))
                        (String "/" (String.concat "/" (below :: deeper)))).
    { unfold assemblePath.
      change (name :: below :: deeper) with ([name] ++ below :: deeper).
      rewrite !app_assoc, concat_app; [reflexivity | | discriminate].
      intros Heq. apply app_eq_nil in Heq. destruct Heq as [_ Heq]. discriminate. }
    assert (Hlen : Z.of_nat (String.length (assemblePath c parent)) + 1
                   <= Z.of_nat (String.length (assemblePath c (parent ++ [name])))).
    { unfold assemblePath.
      rewrite (app_assoc _ parent), (concat_app "/" (prefixSegments c ++ parent) [name] Hps)
        by discriminate.
      rewrite !str_length_append. cbn. lia. }
    unfold detachChild.
    pose proof (LastIndexByte_upper _ _ _
                  (get_append_here (assemblePath c (parent ++ [name]))
                                   (String.concat "/" (below :: deeper)) "/"%char)) as Hup.
    rewrite <- Hpath in Hup.
    assert (Hcmp : (nPrefix <=? LastIndexByte
                                  (assemblePath c (parent ++ name :: below :: deeper)) "/")
                   = true) by (apply Z.leb_le; lia).
    rewrite Hcmp. reflexivity.
Qed.

(** ** What [Children] lists and waits on *)

Lemma collectChildren_run :
  forall (results : list consulapi.KVPair) (nPrefix nGlobalPrefix : Z)
         (children : list string) (w : World),
    Forall (fun r => exists child,
                detachChild (consulapi.kvKey r) nPrefix nGlobalPrefix = Returned child)
           results ->
    collectChildren results nPrefix nGlobalPrefix children w
    = (Returned (children ++ flat_map (keptChild nPrefix nGlobalPrefix) results), w).
Proof.
  induction results as [|r rest IH]; intros nPrefix nGlobalPrefix children w Hall.
  - cbn. unfold ret. now rewrite app_nil_r.
  - inversion Hall as [|? ? [child Hchild] Hrest]; subst.
    cbn [collectChildren flat_map]. unfold keptChild at 1. rewrite Hchild.
    destruct (String.eqb child ""); rewrite (IH _ _ _ _ Hrest); [reflexivity|].
    now rewrite <- app_assoc.
Qed.

Lemma detachChild_returns :
  forall (path : string) (nPrefix nGlobalPrefix : Z),
    0 <= nGlobalPrefix <= Z.of_nat (String.length path) ->
    exists child, detachChild path nPrefix nGlobalPrefix = Returned child.
Proof.
  intros path nPrefix nGlobalPrefix Hrange. unfold detachChild, sliceFrom.
  destruct (nPrefix <=? LastIndexByte path "/"); [eexists; reflexivity|].
  destruct (nGlobalPrefix =? 0); [eexists; reflexivity|].
  assert (Hin : ((nGlobalPrefix <? 0)
                 || (Z.of_nat (String.length path) <? nGlobalPrefix)) = false).
  { apply orb_false_iff. split; apply Z.ltb_ge; lia. }
  rewrite Hin. eexists. reflexivity.
Qed.

(** X10. [Children] sends the batch [get-tree(path + "/"); get(path)]. When
    it does not commit the result is [OpErrNoEntry], whatever the errors
    say. When it commits and every result key but the last is at least as
    long as the mount prefix, [Children] returns, in the order of the
    results and leaving the last result out, the non-empty outcomes of
    [detachChild], and a watch only if asked, on the path and the largest
    modify index of all results. *)
Theorem Children_lists :
  forall (key : string) (watch : bool) (segments : list string) (w : World),
    DisassembleKey key = inr segments ->
    let frozenPath := assemblePath (client w) segments in
    let frozenPrefix := String.append frozenPath "/" in
    let nPrefix := Z.of_nat (String.length frozenPrefix) in
    let nGlobalPrefix := Z.of_nat (String.length (assemblePath (client w) [])) in
    let batch := [opGetTree frozenPrefix; opGet frozenPath] in
    (forall resp,
        consulTxn batch = TxnReturned false resp ->
        Children key watch w
        = (Returned ([], None, Some OpErrNoEntry), called w (CallTxn batch))) /\
    (forall resp,
        consulTxn batch = TxnReturned true resp ->
        Forall (fun r => nGlobalPrefix <= Z.of_nat (String.length (consulapi.kvKey r)))
               (removelast (consulapi.Results resp)) ->
        Children key watch w
        = (Returned (flat_map (keptChild nPrefix nGlobalPrefix)
                              (removelast (consulapi.Results resp)),
                     (if watch
                      then Some (goffkv.mkWatch frozenPath
                                   (maxModifyIndex (consulapi.Results resp)) true)
                      else None),
                     None),
           called w (CallTxn batch))).
Proof.
  intros key watch segments w Hkey frozenPath frozenPrefix nPrefix nGlobalPrefix batch.
  unfold Children. rewrite Hkey. unfold txn_Txn. go_unfold. cbn.
  fold frozenPath. fold frozenPrefix. fold batch. fold nPrefix. fold nGlobalPrefix.
  split; intros resp Hresp; rewrite Hresp; [reflexivity|].
  intros Hlong. rewrite collectChildren_run; [reflexivity|].
  eapply Forall_impl; [|exact Hlong].
  intros r Hr. apply detachChild_returns. unfold nGlobalPrefix in *. lia.
Qed.

Lemma fold_max_spec :
  forall (results : list consulapi.KVPair) (init : N),
    let m := fold_left (fun ver r => let curVer := consulapi.ModifyIndex r in
                                     if (ver <? curVer)%N then curVer else ver)
                       results init in
    (init <= m)%N
    /\ (forall r, In r results -> (consulapi.ModifyIndex r <= m)%N)
    /\ (m = init \/ exists r, In r results /\ m = consulapi.ModifyIndex r).
Proof.
  induction results as [|r rest IH]; intros init; cbn [fold_left].
  - cbv zeta. repeat apply conj; [lia | intros r [] | now left].
  - cbv zeta in *.
    destruct (IH (if (init <? consulapi.ModifyIndex r)%N
                  then consulapi.ModifyIndex r else init)) as [Hge [Hall Hone]].
    destruct (init <? consulapi.ModifyIndex r)%N eqn:Hcmp;
      [apply N.ltb_lt in Hcmp | apply N.ltb_ge in Hcmp].
    + repeat apply conj.
      * lia.
      * intros r' [<- | Hin]; [exact Hge | now apply Hall].
      * right. destruct Hone as [-> | [r' [Hin Heq]]];
          [exists r; split; [now left | reflexivity]
          | exists r'; split; [now right | exact Heq]].
    + repeat apply conj.
      * exact Hge.
      * intros r' [<- | Hin]; [lia | now apply Hall].
      * destruct Hone as [-> | [r' [Hin Heq]]];
          [now left | right; exists r'; split; [now right | exact Heq]].
Qed.

(** X11. The index the watch of [Children] waits on is at least the modify
    index of every result, the listed key's own among them, and it is the
    modify index of one of the results, or 0 when there is none above 0. *)
Theorem maxModifyIndex_is_max :
  forall results : list consulapi.KVPair,
    (forall r, In r results -> (consulapi.ModifyIndex r <= maxModifyIndex results)%N) /\
    (maxModifyIndex results = 0%N
     \/ exists r, In r results /\ maxModifyIndex results = consulapi.ModifyIndex r).
Proof.
  intros results. destruct (fold_max_spec results 0%N) as [_ [Hall Hone]].
  split; [exact Hall | exact Hone].
Qed.

(** ** [Exists] and [Get] *)

(** X12. [Exists] and [Get] read the same path with one [kv.Get] each. For a
    key the store has, both return its modify index and, only if asked, a
    watch on the path and that index, and [Get] the value as well; a store
    error is returned by both; they differ on an absent key alone. *)
Theorem Exists_like_Get :
  forall (key : string) (watch : bool) (segments : list string) (w : World),
    DisassembleKey key = inr segments ->
    let path := assemblePath (client w) segments in
    snd (Exists key watch w) = called w (CallKVGet path) /\
    snd (Get key watch w) = called w (CallKVGet path) /\
    (forall kv,
        consulKVGet path = inr (Some kv) ->
        let resultWatch :=
          if watch then Some (goffkv.mkWatch path (consulapi.ModifyIndex kv) false)
          else None in
        fst (Exists key watch w)
        = Returned (consulapi.ModifyIndex kv, resultWatch, None)
        /\ fst (Get key watch w)
           = Returned (consulapi.ModifyIndex kv, consulapi.kvValue kv, resultWatch, None)) /\
    (forall err,
        consulKVGet path = inl err ->
        fst (Exists key watch w) = Returned (0%N, None, Some (ErrTransport err))
        /\ fst (Get key watch w) = Returned (0%N, [], None, Some (ErrTransport err))).
Proof.
  intros key watch segments w Hkey path.
  unfold Exists, Get. rewrite Hkey. unfold kv_Get. go_unfold. cbn. fold path.
  repeat apply conj.
  - destruct (consulKVGet path) as [err | [kv|]]; reflexivity.
  - destruct (consulKVGet path) as [err | [kv|]]; reflexivity.
  - intros kv Hkv. rewrite Hkv. split; reflexivity.
  - intros err Herr. rewrite Herr. split; reflexivity.
Qed.

(** ** The writes on commit, and responses out of the ordinary *)

(** X13. [Set] sends one batch, the set on the key alone for a key of one
    segment and the get of the parent before it for a longer key, and on
    commit it returns the modify index of the last result. *)
Theorem Set_batch_and_version :
  forall (key : string) (value : list byte) (segments : list string) (w : World),
    DisassembleKey key = inr segments ->
    let path := assemblePath (client w) segments in
    let batch := maybeGetParent (client w) segments ++ [opSet path value] in
    snd (Set_ key value w) = called w (CallTxn batch) /\
    (forall resp results r,
        consulTxn batch = TxnReturned true resp ->
        consulapi.Results resp = results ++ [r] ->
        fst (Set_ key value w) = Returned (consulapi.ModifyIndex r, None)) /\
    (len segments <= 1 -> batch = [opSet path value]) /\
    (1 < len segments ->
     batch = [opGet (assemblePath (client w) (removelast segments)); opSet path value]).
Proof.
  intros key value segments w Hkey path batch.
  unfold Set_. rewrite Hkey. unfold txn_Txn. go_unfold. cbn. fold path. fold batch.
  repeat apply conj.
  - destruct (consulTxn batch) as [msg | [|] resp]; cbn; try reflexivity.
    destruct (rev (consulapi.Results resp)); reflexivity.
  - intros resp results r Hresp Hres. rewrite Hresp, Hres, rev_unit. reflexivity.
  - intros Hlen. unfold batch, maybeGetParent.
    assert (Hcmp : (1 <? len segments) = false) by (apply Z.ltb_ge; lia).
    now rewrite Hcmp.
  - intros Hlen. unfold batch, maybeGetParent.
    assert (Hcmp : (1 <? len segments) = true) by (apply Z.ltb_lt; lia).
    now rewrite Hcmp.
Qed.

(** X14. [Create] without lease sends one batch, the parent get for a key of
    two or more segments, then the check-not-exists and the set on the key,
    touches no session, and on commit returns the modify index of the last
    result. *)
Theorem Create_batch_and_version :
  forall (key : string) (value : list byte) (segments : list string) (w : World),
    DisassembleKey key = inr segments ->
    let path := assemblePath (client w) segments in
    let batch := maybeGetParent (client w) segments
                   ++ [opCheckNotExists path; opSet path value] in
    snd (Create key value false w) = called w (CallTxn batch) /\
    (forall resp results r,
        consulTxn batch = TxnReturned true resp ->
        consulapi.Results resp = results ++ [r] ->
        fst (Create key value false w) = Returned (consulapi.ModifyIndex r, None)) /\
    (len segments <= 1 -> batch = [opCheckNotExists path; opSet path value]) /\
    (1 < len segments ->
     batch = [opGet (assemblePath (client w) (removelast segments));
              opCheckNotExists path; opSet path value]).
Proof.
  intros key value segments w Hkey path batch.
  assert (Hb : (maybeGetParent (client w) segments ++ [opCheckNotExists path])
                 ++ [opSet path value] = batch)
    by (unfold batch; rewrite <- app_assoc; reflexivity).
  unfold Create. rewrite Hkey. unfold txn_Txn. go_unfold. cbn. fold path. rewrite Hb.
  repeat apply conj.
  - destruct (consulTxn batch) as [msg | [|] resp]; cbn; try reflexivity.
    + destruct (rev (consulapi.Results resp)); reflexivity.
    + destruct (consulapi.Errors resp) as [|e rest]; cbn; [reflexivity|].
      destruct (_ <? _); [reflexivity|]. destruct (_ =? _); reflexivity.
  - intros resp results r Hresp Hres. rewrite Hresp, Hres, rev_unit. reflexivity.
  - intros Hlen. unfold batch, maybeGetParent.
    assert (Hcmp : (1 <? len segments) = false) by (apply Z.ltb_ge; lia).
    now rewrite Hcmp.
  - intros Hlen. unfold batch, maybeGetParent.
    assert (Hcmp : (1 <? len segments) = true) by (apply Z.ltb_lt; lia).
    now rewrite Hcmp.
Qed.

(** X15. Responses the methods index without a check. A committed batch with
    no result makes [Create], [Set] and [Cas] panic, and a batch that did not
    commit with no error makes [Create], [Cas], [Erase] and [Commit] panic;
    [Erase] ignores the results of a committed batch. *)
Theorem empty_response_panics :
  (forall (key : string) (value : list byte) (segments : list string) (w : World)
          (resp : consulapi.TxnResponse),
      DisassembleKey key = inr segments ->
      let path := assemblePath (client w) segments in
      let parent := maybeGetParent (client w) segments in
      (consulTxn (parent ++ [opCheckNotExists path; opSet path value])
       = TxnReturned true resp ->
       consulapi.Results resp = [] ->
       fst (Create key value false w) = Panicked "index out of range") /\
      (consulTxn (parent ++ [opCheckNotExists path; opSet path value])
       = TxnReturned false resp ->
       consulapi.Errors resp = [] ->
       fst (Create key value false w) = Panicked "index out of range") /\
      (consulTxn (parent ++ [opSet path value]) = TxnReturned true resp ->
       consulapi.Results resp = [] ->
       fst (Set_ key value w) = Panicked "index out of range") /\
      (forall ver,
          ver <> 0%N ->
          (consulTxn [opGet path; opCAS path value ver] = TxnReturned true resp ->
           consulapi.Results resp = [] ->
           fst (Cas key value ver w) = Panicked "index out of range") /\
          (consulTxn [opGet path; opCAS path value ver] = TxnReturned false resp ->
           consulapi.Errors resp = [] ->
           fst (Cas key value ver w) = Panicked "index out of range")) /\
      (forall ver,
          let batch := [opGet path;
                        if (ver =? 0)%N then opDelete path else opDeleteCAS path ver;
                        opDeleteTree (String.append path "/")] in
          (consulTxn batch = TxnReturned false resp ->
           consulapi.Errors resp = [] ->
           fst (Erase key ver w) = Panicked "index out of range") /\
          (consulTxn batch = TxnReturned true resp ->
           fst (Erase key ver w) = Returned None))) /\
  (forall (txn : goffkv.Txn) (b : Batch) (w w1 : World) (resp : consulapi.TxnResponse),
      Commit_build txn w = (Returned (inr b), w1) ->
      consulTxn (ops b) = TxnReturned false resp ->
      consulapi.Errors resp = [] ->
      fst (Commit txn w) = Panicked "index out of range").
Proof.
  split.
  - intros key value segments w resp Hkey path parent.
    unfold Create, Set_, Cas, Erase. rewrite Hkey. unfold txn_Txn. go_unfold. cbn.
    fold path. fold parent. repeat apply conj.
    + intros Hresp Hempty.
      replace ((parent ++ [opCheckNotExists path]) ++ [opSet path value])
        with (parent ++ [opCheckNotExists path; opSet path value])
        by (rewrite <- app_assoc; reflexivity).
      rewrite Hresp, Hempty. reflexivity.
    + intros Hresp Hempty.
      replace ((parent ++ [opCheckNotExists path]) ++ [opSet path value])
        with (parent ++ [opCheckNotExists path; opSet path value])
        by (rewrite <- app_assoc; reflexivity).
      rewrite Hresp, Hempty. reflexivity.
    + intros Hresp Hempty. rewrite Hresp, Hempty. reflexivity.
    + intros ver Hver. apply N.eqb_neq in Hver. rewrite Hver. cbn. fold path.
      split; intros Hresp Hempty; rewrite Hresp, Hempty; reflexivity.
    + intros ver. destruct (ver =? 0)%N; cbn [app]; split; intros Hresp;
        try intros Hempty; rewrite Hresp; try rewrite Hempty; reflexivity.
  - intros txn b w w1 resp Hbuild Hresp Hempty.
    unfold Commit. unfold bind at 1. rewrite Hbuild. unfold txn_Txn. go_unfold. cbn.
    rewrite Hresp, Hempty. reflexivity.
Qed.

(** An error of the transaction call itself is handed to the caller as
    it is by every method that sends a batch, with no version, child or
    result beside it. *)
Lemma transport_error_surfaces :
  forall (msg : string),
    (forall (key : string) (value : list byte) (segments : list string) (w : World),
        DisassembleKey key = inr segments ->
        let path := assemblePath (client w) segments in
        let parent := maybeGetParent (client w) segments in
        (consulTxn (parent ++ [opCheckNotExists path; opSet path value])
         = TxnTransportError msg ->
         fst (Create key value false w) = Returned (0%N, Some (ErrTransport msg))) /\
        (consulTxn (parent ++ [opSet path value]) = TxnTransportError msg ->
         fst (Set_ key value w) = Returned (0%N, Some (ErrTransport msg))) /\
        (forall ver,
            ver <> 0%N ->
            consulTxn [opGet path; opCAS path value ver] = TxnTransportError msg ->
            fst (Cas key value ver w) = Returned (0%N, Some (ErrTransport msg))) /\
        (forall ver,
            consulTxn [opGet path;
                       if (ver =? 0)%N then opDelete path else opDeleteCAS path ver;
                       opDeleteTree (String.append path "/")]
            = TxnTransportError msg ->
            fst (Erase key ver w) = Returned (Some (ErrTransport msg))) /\
        (forall watch,
            consulTxn [opGetTree (String.append path "/"); opGet path]
            = TxnTransportError msg ->
            fst (Children key watch w) = Returned ([], None, Some (ErrTransport msg)))) /\
    (forall (txn : goffkv.Txn) (b : Batch) (w w1 : World),
        Commit_build txn w = (Returned (inr b), w1) ->
        consulTxn (ops b) = TxnTransportError msg ->
        Commit txn w = (Returned ([], Some (ErrTransport msg)), called w1 (CallTxn (ops b)))).
Proof.
  intros msg. split.
  - intros key value segments w Hkey path parent.
    unfold Create, Set_, Cas, Erase, Children. rewrite Hkey. unfold txn_Txn. go_unfold.
    cbn. fold path. fold parent. repeat apply conj.
    + intros Hresp.
      replace ((parent ++ [opCheckNotExists path]) ++ [opSet path value])
        with (parent ++ [opCheckNotExists path; opSet path value])
        by (rewrite <- app_assoc; reflexivity).
      rewrite Hresp. reflexivity.
    + intros Hresp. rewrite Hresp. reflexivity.
    + intros ver Hver Hresp. apply N.eqb_neq in Hver. rewrite Hver. cbn. fold path.
      rewrite Hresp. reflexivity.
    + intros ver. destruct (ver =? 0)%N; cbn [app]; intros Hresp; rewrite Hresp;
        reflexivity.
    + intros watch Hresp. rewrite Hresp. reflexivity.
  - intros txn b w w1 Hbuild Hresp.
    unfold Commit. unfold bind at 1. rewrite Hbuild. unfold txn_Txn. go_unfold. cbn.
    rewrite Hresp. reflexivity.
Qed.

(** ** The session across [Close] and within one [Commit] *)

(** A leased [Create] on a driver with a session sends its batch and nothing
    else. *)
Lemma Create_leased_cached :
  forall (key : string) (value : list byte) (segments : list string) (w : World),
    DisassembleKey key = inr segments ->
    sessionId (client w) <> ""%string ->
    snd (Create key value true w)
    = called w (CallTxn (maybeGetParent (client w) segments
                           ++ [opCheckNotExists (assemblePath (client w) segments);
                               opLock (assemblePath (client w) segments) value
                                      (sessionId (client w))])).
Proof.
  intros key value segments w Hkey Hsid. apply String.eqb_neq in Hsid.
  unfold Create. rewrite Hkey.
  unfold getOrCreateSessionId, session_Create, txn_Txn. go_unfold.
  rewrite Hsid. cbn [negb]. rewrite <- app_assoc. cbn [app].
  destruct (consulTxn _) as [msg | [|] resp]; cbn; try reflexivity.
  - destruct (rev (consulapi.Results resp)); reflexivity.
  - destruct (consulapi.Errors resp) as [|e rest]; cbn; [reflexivity|].
    destruct (_ <? _); [reflexivity|]. destruct (_ =? _); reflexivity.
Qed.

(** X16. [Close] keeps the session id: after [Close] on a driver with a
    session, [getOrCreateSessionId] still returns the cached id without
    asking the store and the stop channel stays closed, so a leased [Create]
    after [Close] locks under the old session. *)
Theorem Close_keeps_session :
  forall w : World,
    sessionId (client w) <> ""%string ->
    sessionRenewDoneCh (client w) = ChanOpen ->
    exists w2,
      Close w = (Returned tt, w2)
      /\ sessionId (client w2) = sessionId (client w)
      /\ sessionRenewDoneCh (client w2) = ChanClosed
      /\ journal w2 = journal w
      /\ getOrCreateSessionId w2 = (Returned (sessionId (client w), None), w2)
      /\ forall key value segments,
          DisassembleKey key = inr segments ->
          let path := assemblePath (client w) segments in
          snd (Create key value true w2)
          = called w2 (CallTxn (maybeGetParent (client w) segments
                                  ++ [opCheckNotExists path;
                                      opLock path value (sessionId (client w))])).
Proof.
  intros w Hsid Hopen.
  assert (Hne : String.eqb (sessionId (client w)) "" = false) by now apply String.eqb_neq.
  eexists. unfold Close. go_unfold. rewrite Hopen.
  split; [reflexivity|]. cbn [client sessionId sessionRenewDoneCh journal].
  repeat apply conj; try reflexivity.
  - unfold getOrCreateSessionId. go_unfold. cbn. rewrite Hne. reflexivity.
  - intros key value segments Hkey.
    exact (Create_leased_cached key value segments
             {| client := {| prefixSegments := prefixSegments (client w);
                             sessionId := sessionId (client w);
                             sessionRenewDoneCh := ChanClosed |};
                journal := journal w |} Hkey Hsid).
Qed.

Lemma Commit_ops_with_session :
  forall (items : list goffkv.TxnOp) (b : Batch) (w : World),
    sessionId (client w) <> ""%string ->
    exists r, Commit_ops items b w = (Returned r, w).
Proof.
  induction items as [|op rest IH]; intros b w Hsid; cbn [Commit_ops].
  - eexists. reflexivity.
  - destruct (DisassembleKey (goffkv.Key op)) as [err | segments];
      [eexists; reflexivity|].
    assert (Hne : String.eqb (sessionId (client w)) "" = false)
      by now apply String.eqb_neq.
    unfold Commit_op, getOrCreateSessionId. go_unfold.
    destruct (goffkv.What op); try (apply IH; exact Hsid).
    destruct (goffkv.Lease op); [|apply IH; exact Hsid].
    rewrite Hne. cbn [negb]. apply IH. exact Hsid.
Qed.

Lemma Commit_ops_one_session :
  forall (items : list goffkv.TxnOp) (b : Batch) (w : World),
    sessionCreate <> inr ""%string ->
    exists r w' calls,
      Commit_ops items b w = (Returned r, w')
      /\ journal w' = journal w ++ calls
      /\ (calls = [] \/ calls = [CallSessionCreate]).
Proof.
  induction items as [|op rest IH]; intros b w Hstore; cbn [Commit_ops].
  - exists (inr b), w, []. split; [reflexivity|]. split; [now rewrite app_nil_r | now left].
  - destruct (DisassembleKey (goffkv.Key op)) as [err | segments].
    { eexists. exists w, []. split; [reflexivity|].
      split; [now rewrite app_nil_r | now left]. }
    unfold bind, Commit_op, getClient, ret.
    destruct (goffkv.What op); try (apply IH; exact Hstore).
    destruct (goffkv.Lease op); [|apply IH; exact Hstore].
    unfold getOrCreateSessionId, session_Create. go_unfold.
    destruct (String.eqb (sessionId (client w)) "") eqn:Hsid; cbn [negb];
      [|apply IH; exact Hstore].
    destruct sessionCreate as [err | sid] eqn:Hcreate.
    + eexists. eexists. exists [CallSessionCreate].
      split; [reflexivity|]. split; [reflexivity | now right].
    + assert (Hne : sid <> ""%string) by (intros ->; now apply Hstore).
      match goal with
      | |- context [Commit_ops rest ?b1 ?w1] =>
          destruct (Commit_ops_with_session rest b1 w1 Hne) as [r Hrun]; rewrite Hrun
      end.
      eexists. eexists. exists [CallSessionCreate].
      split; [reflexivity|]. split; [reflexivity | now right].
Qed.

(** X17. One [Commit] asks the store for a session at most once, however many
    leased creates its Txn has, and not at all when the driver has a session;
    the store does not hand out the empty string as a session id. *)
Theorem Commit_creates_one_session :
  forall (txn : goffkv.Txn) (w : World),
    sessionCreate <> inr ""%string ->
    exists r w' calls,
      Commit_build txn w = (Returned r, w')
      /\ journal w' = journal w ++ calls
      /\ (calls = [] \/ calls = [CallSessionCreate])
      /\ (sessionId (client w) <> ""%string -> w' = w).
Proof.
  intros txn w Hstore. unfold Commit_build, bind, getClient.
  destruct (Commit_checks (client w) (goffkv.Checks txn) emptyBatch) as [err | b0].
  - exists (inl err), w, []. split; [reflexivity|].
    split; [now rewrite app_nil_r|]. split; [now left | reflexivity].
  - destruct (Commit_ops_one_session (goffkv.Ops txn) b0 w Hstore)
      as [r [w' [calls [Hrun [Hj Hcalls]]]]].
    exists r, w', calls. repeat apply conj; try assumption.
    intros Hsid. destruct (Commit_ops_with_session (goffkv.Ops txn) b0 w Hsid) as [r' Hrun'].
    congruence.
Qed.

End Driver.

(** ** Example runs *)

(** C1 at [sampleTxn] failing at slot 3, the get of the erase: the boundaries
    are 0, 2 and 5, and the error names item 2. *)
Lemma Commit_failure_index_witness :
  Commit sampleDisassembleKey (inr "s1"%string) (fun _ => failedAt 3) sampleTxn freshWorld
  = (Returned ([], Some (TxnError 2)),
     called freshWorld
       (CallTxn [opCheckIndex "mnt/k1" 5%N; opGet "mnt/k1"; opSet "mnt/k1" [];
                 opGet "mnt/k2"; opDelete "mnt/k2"; opDeleteTree "mnt/k2/"])).
Proof.
  destruct (Commit_failure_index sampleDisassembleKey (inr "s1"%string)
              (fun _ => failedAt 3) sampleTxn
              {| ops := [opCheckIndex "mnt/k1" 5%N; opGet "mnt/k1"; opSet "mnt/k1" [];
                         opGet "mnt/k2"; opDelete "mnt/k2"; opDeleteTree "mnt/k2/"];
                 boundaries := [0; 2; 5];
                 rks := [rkAux; rkAux; rkSet; rkAux] |}
              freshWorld freshWorld _ _ _ eq_refl eq_refl eq_refl) as [Hfound _].
  refine (proj1 (Hfound 2%nat 5 eq_refl _ _)).
  - cbn. lia.
  - intros j y Hj Hy. destruct j as [|[|j]]; cbn in Hy; [| |lia];
      injection Hy as <-; cbn; lia.
Defined.

(** C2 at a key with a parent: a failure of the parent get is [OpErrNoEntry]. *)
Lemma Create_failure_errors_witness :
  fst (Create sampleDisassembleKey (inr "s1"%string) (fun _ => failedAt 0)
         "/a/b" [] false freshWorld)
  = Returned (0%N, Some OpErrNoEntry).
Proof.
  destruct (Create_failure_errors sampleDisassembleKey (inr "s1"%string)
              (fun _ => failedAt 0) "/a/b" [] false ["a"; "b"]%string
              freshWorld freshWorld (opSet "mnt/a/b" []) _ _ _
              eq_refl (conj eq_refl eq_refl) eq_refl eq_refl) as [_ [Hbelow _]].
  apply Hbelow. cbn. lia.
Defined.

(** C3 at a stale version: the failure at the compare-and-swap slot is
    version 0 without error. *)
Lemma Cas_nonzero_version_witness :
  7%N <> 0%N /\
  fst (Cas sampleDisassembleKey (inr "s1"%string) (fun _ => failedAt 1)
         "/a" [] 7%N freshWorld)
  = Returned (0%N, None).
Proof.
  assert (Hver : 7%N <> 0%N) by discriminate.
  split; [exact Hver|].
  destruct (Cas_nonzero_version sampleDisassembleKey (inr "s1"%string)
              (fun _ => failedAt 1) "/a" [] 7%N ["a"%string] freshWorld Hver eq_refl)
    as [_ [_ Hfail]].
  destruct (Hfail _ _ _ eq_refl eq_refl) as [_ [Hslot1 _]].
  exact (Hslot1 eq_refl).
Defined.

(** C4 at an existing key: [Create] reports [OpErrEntryExists], [Cas] version
    0 without error. *)
Lemma Cas_zero_delegates_to_Create_witness :
  fst (Create sampleDisassembleKey (inr "s1"%string) (fun _ => failedAt 0)
         "/a" [] false freshWorld)
  = Returned (0%N, Some OpErrEntryExists) /\
  fst (Cas sampleDisassembleKey (inr "s1"%string) (fun _ => failedAt 0)
         "/a" [] 0%N freshWorld)
  = Returned (0%N, None).
Proof.
  split; [reflexivity|].
  destruct (Cas_zero_delegates_to_Create sampleDisassembleKey (inr "s1"%string)
              (fun _ => failedAt 0) "/a" [] freshWorld) as [_ [_ [Hexists _]]].
  exact (Hexists 0%N eq_refl).
Defined.

(** C5 at a version mismatch: the failure at slot 1 is no error. *)
Lemma Erase_batch_and_errors_witness :
  snd (Erase sampleDisassembleKey (fun _ => failedAt 1) "/a" 7%N freshWorld)
  = called freshWorld
      (CallTxn [opGet "mnt/a"; opDeleteCAS "mnt/a" 7%N; opDeleteTree "mnt/a/"]) /\
  fst (Erase sampleDisassembleKey (fun _ => failedAt 1) "/a" 7%N freshWorld)
  = Returned None.
Proof.
  destruct (Erase_batch_and_errors sampleDisassembleKey (fun _ => failedAt 1)
              "/a" 7%N ["a"%string] freshWorld eq_refl) as [Hbatch Hfail].
  split; [exact Hbatch|].
  destruct (Hfail _ _ _ eq_refl eq_refl) as [_ Hlater].
  apply Hlater. cbn. discriminate.
Defined.

(** C6, amended, at [sampleTxn]: six primitives, four result kinds, three
    boundaries. *)
Lemma Commit_build_slices_witness :
  List.length (rks (mkBatch
                      [opCheckIndex "mnt/k1" 5%N; opGet "mnt/k1"; opSet "mnt/k1" [];
                       opGet "mnt/k2"; opDelete "mnt/k2"; opDeleteTree "mnt/k2/"]
                      [0; 2; 5] [rkAux; rkAux; rkSet; rkAux])) = 4%nat /\
  lastSlots 0 (itemWidths sampleDisassembleKey sampleTxn) = [0; 2; 5].
Proof.
  destruct (Commit_build_slices sampleDisassembleKey (inr "s1"%string) sampleTxn
              {| ops := [opCheckIndex "mnt/k1" 5%N; opGet "mnt/k1"; opSet "mnt/k1" [];
                         opGet "mnt/k2"; opDelete "mnt/k2"; opDeleteTree "mnt/k2/"];
                 boundaries := [0; 2; 5];
                 rks := [rkAux; rkAux; rkSet; rkAux] |}
              freshWorld freshWorld eq_refl) as [Hkinds [_ [Hbounds _]]].
  split; [exact Hkinds | symmetry; exact Hbounds].
Defined.

(** C6 as stated fails at a Txn of one erase: three primitives, one result
    kind. *)
Lemma Commit_build_kinds_not_per_slot :
  exists b : Batch,
    Commit_build sampleDisassembleKey (inr "s1"%string)
      {| goffkv.Checks := []; goffkv.Ops := [goffkv.mkTxnOp goffkv.Erase "/a" [] false] |}
      freshWorld
    = (Returned (inr b), freshWorld)
    /\ ops b = [opGet "mnt/a"; opDelete "mnt/a"; opDeleteTree "mnt/a/"]
    /\ rks b = [rkAux]
    /\ List.length (ops b) = 3%nat
    /\ List.length (rks b) = 1%nat.
Proof.
  eexists. split; [reflexivity|]. repeat split.
Qed.

(** C7, amended, at a fresh driver: [Close] does nothing; after a session is
    created it closes the channel. *)
Lemma Close_safe_witness :
  Close freshWorld = (Returned tt, freshWorld) /\
  exists w1 w2,
    getOrCreateSessionId (inr "s1"%string) freshWorld = (Returned ("s1"%string, None), w1)
    /\ Close w1 = (Returned tt, w2)
    /\ sessionRenewDoneCh (client w2) = ChanClosed.
Proof.
  destruct (Close_safe (inr "s1"%string)) as [Hnil [_ Hopen]].
  split; [exact (proj1 (Hnil freshWorld eq_refl))|].
  destruct (Hopen freshWorld _ "s1"%string eq_refl eq_refl) as [_ [w2 [Hclose [Hch _]]]].
  eexists. exists w2. split; [reflexivity|]. split; [exact Hclose | exact Hch].
Defined.

(** C7 as stated fails: after a leased [Create] made the session, the second
    [Close] panics. *)
Lemma Close_twice_panics :
  fst ((_ <- Create sampleDisassembleKey (inr "s1"%string) (fun _ => committedWith 9%N)
              "/a" [] true ;;
        _ <- Close ;;
        Close) freshWorld)
  = Panicked "close of closed channel".
Proof. reflexivity. Qed.

(** C8, amended, at a direct child under the mount "mnt". *)
Lemma detachChild_direct_children_witness :
  (exists head child,
      detachChild "mnt/a/b" 6 3 = Returned child
      /\ "mnt/a/b"%string = String.append head child
      /\ Z.of_nat (String.length head) = 3) /\
  detachChild "mnt/a/b/c" 6 3 = Returned ""%string /\
  detachChild "a/b" 2 0 = Returned "/a/b"%string.
Proof.
  destruct (detachChild_direct_children sampleDisassembleKey (fun _ => failedAt 0))
    as [Hdetach _].
  assert (Hnone : forall (s : string) (n : Z),
             LastIndexByte s "/" < n ->
             forall i, n <= Z.of_nat i -> String.get i s <> Some "/"%char).
  { intros s n Hlast i Hi Hget. apply LastIndexByte_upper in Hget. lia. }
  split; [|split].
  - destruct (Hdetach "mnt/a/b"%string 6 3) as [_ Hchild].
    assert (Hlast : LastIndexByte "mnt/a/b" "/" < 6) by (vm_compute; reflexivity).
    destruct (Hchild ltac:(lia) (Hnone _ _ Hlast)) as [_ Hsuffix].
    exact (Hsuffix ltac:(lia) ltac:(cbn; lia)).
  - destruct (Hdetach "mnt/a/b/c"%string 6 3) as [Hgrand _].
    apply Hgrand. exists 7%nat. split; [lia | reflexivity].
  - destruct (Hdetach "a/b"%string 2 0) as [_ Hchild].
    assert (Hlast : LastIndexByte "a/b" "/" < 2) by (vm_compute; reflexivity).
    destruct (Hchild ltac:(lia) (Hnone _ _ Hlast)) as [Hroot _].
    exact (Hroot eq_refl).
Defined.

(** C8 as stated fails when the mount length is beyond the path or negative:
    the slice panics; and with a negative prefix length a path without "/"
    gives the empty string. *)
Lemma detachChild_slice_out_of_range :
  LastIndexByte "abc" "/" = -1 /\
  detachChild "abc" 0 5 = Panicked "slice bounds out of range" /\
  detachChild "abc" 0 (-1) = Panicked "slice bounds out of range" /\
  detachChild "abc" (-1) 0 = Returned ""%string.
Proof. repeat split. Qed.

(** C9 at a key whose parent is missing. *)
Lemma Set_failure_is_NoEntry_witness :
  fst (Set_ sampleDisassembleKey (fun _ => failedAt 0) "/a/b" [] freshWorld)
  = Returned (0%N, Some OpErrNoEntry).
Proof.
  destruct (Set_failure_is_NoEntry sampleDisassembleKey (fun _ => failedAt 0)
              "/a/b" [] freshWorld) as [Hfail _].
  exact (Hfail ["a"; "b"]%string _ eq_refl eq_refl).
Defined.

(** C10 at an absent key with a watch requested. *)
Lemma Exists_absent_key_witness :
  Exists sampleDisassembleKey (fun _ => inr None) "/a" true freshWorld
  = (Returned (0%N, None, None), called freshWorld (CallKVGet "mnt/a")).
Proof.
  exact (proj1 (Exists_absent_key sampleDisassembleKey (fun _ => inr None)
                  "/a" true ["a"%string] freshWorld eq_refl eq_refl)).
Defined.

(** ** Further example runs *)

(** X2 at a fresh driver: two calls, one session creation. *)
Lemma session_created_once_witness :
  (_ <- getOrCreateSessionId (inr "s1"%string) ;;
   getOrCreateSessionId (inr "s1"%string)) freshWorld
  = (Returned ("s1"%string, None),
     {| client := {| prefixSegments := ["mnt"%string];
                     sessionId := "s1";
                     sessionRenewDoneCh := ChanOpen |};
        journal := [CallSessionCreate] |}).
Proof.
  destruct (session_created_once (inr "s1"%string) freshWorld) as [_ [Hnew _]].
  destruct (Hnew "s1"%string eq_refl eq_refl) as [_ Htwice].
  apply Htwice. discriminate.
Defined.

(** X3 at a fresh driver: the session is created, then the batch is sent. *)
Lemma Create_leased_session_witness :
  journal (snd (Create sampleDisassembleKey (inr "s1"%string) (fun _ => committedWith 9%N)
                  "/a" [] true freshWorld))
  = [CallSessionCreate;
     CallTxn [opCheckNotExists "mnt/a"; opLock "mnt/a" [] "s1"]].
Proof.
  destruct (Create_leased_session sampleDisassembleKey (inr "s1"%string)
              (fun _ => committedWith 9%N) "/a" [] ["a"%string] freshWorld eq_refl)
    as [_ [Hnew _]].
  exact (proj1 (Hnew "s1"%string eq_refl eq_refl)).
Defined.

(** X4 at a key without leading "/". *)
Lemma malformed_key_is_local_witness :
  Set_ sampleDisassembleKey (fun _ => committedWith 9%N) "a//b" [] freshWorld
  = (Returned (0%N, Some (ErrInvalidKey "invalid key")), freshWorld).
Proof.
  destruct (malformed_key_is_local sampleDisassembleKey (inr "s1"%string)
              (fun _ => committedWith 9%N) (fun _ => inr None)
              "a//b" "invalid key" freshWorld eq_refl) as [_ [Hset _]].
  exact (Hset []).
Defined.

(** X5 at a leased create followed by a set on a rejected key. *)
Lemma Commit_malformed_key_witness :
  exists err w',
    Commit sampleDisassembleKey (inr "s1"%string) (fun _ => committedWith 9%N)
      {| goffkv.Checks := [];
         goffkv.Ops := [goffkv.mkTxnOp goffkv.Create "/a" [] true;
                        goffkv.mkTxnOp goffkv.Set_ "bad" [] false] |}
      freshWorld
    = (Returned ([], Some err), w')
    /\ onlySessionCalls freshWorld w'.
Proof.
  apply (proj2 (Commit_malformed_key sampleDisassembleKey (inr "s1"%string)
                  (fun _ => committedWith 9%N) _ freshWorld)).
  apply Exists_cons_tl. apply Exists_cons_hd. exists "invalid key"%string. reflexivity.
Defined.

(** X6 at [sampleTxn], which has no leased create. *)
Lemma Commit_without_lease_witness :
  snd (Commit sampleDisassembleKey (inr "s1"%string) (fun _ => failedAt 3)
         sampleTxn freshWorld)
  = called freshWorld
      (CallTxn [opCheckIndex "mnt/k1" 5%N; opGet "mnt/k1"; opSet "mnt/k1" [];
                opGet "mnt/k2"; opDelete "mnt/k2"; opDeleteTree "mnt/k2/"]).
Proof.
  assert (Hall : Forall (fun op => leasedCreate op = false) (goffkv.Ops sampleTxn))
    by (repeat constructor).
  destruct (Commit_without_lease sampleDisassembleKey (inr "s1"%string)
              (fun _ => failedAt 3) sampleTxn freshWorld Hall) as [_ Hsend].
  exact (Hsend {| ops := [opCheckIndex "mnt/k1" 5%N; opGet "mnt/k1"; opSet "mnt/k1" [];
                          opGet "mnt/k2"; opDelete "mnt/k2"; opDeleteTree "mnt/k2/"];
                  boundaries := [0; 2; 5];
                  rks := [rkAux; rkAux; rkSet; rkAux] |} eq_refl).
Defined.

(** X7 at [sampleTxn] committed with four results: the set is answered with
    the third. *)
Lemma Commit_answers_witness :
  Commit sampleDisassembleKey (inr "s1"%string)
    (fun _ => committedAll [5; 6; 7; 8]%N) sampleTxn freshWorld
  = (Returned ([goffkv.mkTxnOpResult goffkv.Set_ 7%N], None),
     called freshWorld
       (CallTxn [opCheckIndex "mnt/k1" 5%N; opGet "mnt/k1"; opSet "mnt/k1" [];
                 opGet "mnt/k2"; opDelete "mnt/k2"; opDeleteTree "mnt/k2/"])).
Proof.
  exact (proj1 (Commit_answers sampleDisassembleKey (inr "s1"%string)
                  (fun _ => committedAll [5; 6; 7; 8]%N) sampleTxn
                  {| ops := [opCheckIndex "mnt/k1" 5%N; opGet "mnt/k1"; opSet "mnt/k1" [];
                             opGet "mnt/k2"; opDelete "mnt/k2"; opDeleteTree "mnt/k2/"];
                     boundaries := [0; 2; 5];
                     rks := [rkAux; rkAux; rkSet; rkAux] |}
                  freshWorld freshWorld _ eq_refl eq_refl (le_n 4))).
Defined.

(** X8 at [sampleTxn] committed with five results for four result kinds. *)
Lemma Commit_too_many_results_witness :
  fst (Commit sampleDisassembleKey (inr "s1"%string)
         (fun _ => committedAll [5; 6; 7; 8; 9]%N) sampleTxn freshWorld)
  = Panicked "index out of range".
Proof.
  exact (f_equal fst
           (Commit_too_many_results sampleDisassembleKey (inr "s1"%string)
              (fun _ => committedAll [5; 6; 7; 8; 9]%N) sampleTxn
              {| ops := [opCheckIndex "mnt/k1" 5%N; opGet "mnt/k1"; opSet "mnt/k1" [];
                         opGet "mnt/k2"; opDelete "mnt/k2"; opDeleteTree "mnt/k2/"];
                 boundaries := [0; 2; 5];
                 rks := [rkAux; rkAux; rkSet; rkAux] |}
              freshWorld freshWorld _ eq_refl eq_refl (le_n 5))).
Defined.

(** X9 at the child "b" of "/a" under the mount "mnt". *)
Lemma detachChild_of_assembled_witness :
  detachChild (assemblePath (New ["mnt"%string]) ["a"; "b"]%string) 6 3
  = Returned "/a/b"%string.
Proof.
  assert (Hparent : ["a"%string] <> []) by discriminate.
  assert (Hmount : prefixSegments (New ["mnt"%string]) = []
                   \/ String.concat "/" (prefixSegments (New ["mnt"%string])) <> ""%string)
    by (right; discriminate).
  exact (proj1 (detachChild_of_assembled (New ["mnt"%string]) ["a"%string] "b"
                  Hparent eq_refl Hmount)).
Defined.

(** X10 at the listing of "/a" with the keys "/a/b", "/a/b/d" and "/a/c". *)
Lemma Children_lists_witness :
  Children sampleDisassembleKey
    (fun _ => listed ["mnt/a/b"; "mnt/a/b/d"; "mnt/a/c"]%string "mnt/a")
    "/a" true freshWorld
  = (Returned (["/a/b"; "/a/c"]%string,
               Some (goffkv.mkWatch "mnt/a" 3%N true), None),
     called freshWorld (CallTxn [opGetTree "mnt/a/"; opGet "mnt/a"])).
Proof.
  destruct (Children_lists sampleDisassembleKey
              (fun _ => listed ["mnt/a/b"; "mnt/a/b/d"; "mnt/a/c"]%string "mnt/a")
              "/a" true ["a"%string] freshWorld eq_refl) as [_ Hlist].
  apply (Hlist _ eq_refl).
  cbn. repeat constructor; cbn; lia.
Defined.

(** X12 at a key the store has, with a watch requested. *)
Lemma Exists_like_Get_witness :
  fst (Exists sampleDisassembleKey
         (fun _ => inr (Some (consulapi.mkKVPair "mnt/a" [] 4%N))) "/a" true freshWorld)
  = Returned (4%N, Some (goffkv.mkWatch "mnt/a" 4%N false), None).
Proof.
  destruct (Exists_like_Get sampleDisassembleKey
              (fun _ => inr (Some (consulapi.mkKVPair "mnt/a" [] 4%N)))
              "/a" true ["a"%string] freshWorld eq_refl) as [_ [_ [Hpresent _]]].
  exact (proj1 (Hpresent _ eq_refl)).
Defined.

(** X13 at a key with a parent. *)
Lemma Set_batch_and_version_witness :
  Set_ sampleDisassembleKey (fun _ => committedWith 9%N) "/a/b" [] freshWorld
  = (Returned (9%N, None),
     called freshWorld (CallTxn [opGet "mnt/a"; opSet "mnt/a/b" []])).
Proof.
  destruct (Set_batch_and_version sampleDisassembleKey (fun _ => committedWith 9%N)
              "/a/b" [] ["a"; "b"]%string freshWorld eq_refl) as [Hsent [Hver _]].
  apply injective_projections; [exact (Hver _ [] _ eq_refl eq_refl) | exact Hsent].
Defined.

(** X14 at a key of one segment. *)
Lemma Create_batch_and_version_witness :
  Create sampleDisassembleKey (inr "s1"%string) (fun _ => committedWith 9%N)
    "/a" [] false freshWorld
  = (Returned (9%N, None),
     called freshWorld (CallTxn [opCheckNotExists "mnt/a"; opSet "mnt/a" []])).
Proof.
  destruct (Create_batch_and_version sampleDisassembleKey (inr "s1"%string)
              (fun _ => committedWith 9%N) "/a" [] ["a"%string] freshWorld eq_refl)
    as [Hsent [Hver _]].
  apply injective_projections; [exact (Hver _ [] _ eq_refl eq_refl) | exact Hsent].
Defined.

(** X15 at a committed [Set] without results. *)
Lemma empty_response_panics_witness :
  fst (Set_ sampleDisassembleKey (fun _ => committedAll []) "/a" [] freshWorld)
  = Panicked "index out of range".
Proof.
  destruct (empty_response_panics sampleDisassembleKey (inr "s1"%string)
              (fun _ => committedAll [])) as [Hkeyed _].
  destruct (Hkeyed "/a"%string [] ["a"%string] freshWorld
              (consulapi.mkTxnResponse [] []) eq_refl) as [_ [_ [Hset _]]].
  exact (Hset eq_refl eq_refl).
Defined.

(** X16 at a driver with a session, the store being down afterwards. *)
Lemma Close_keeps_session_witness :
  exists w2,
    Close sessionWorld = (Returned tt, w2)
    /\ sessionRenewDoneCh (client w2) = ChanClosed
    /\ getOrCreateSessionId (inl "down"%string) w2 = (Returned ("s1"%string, None), w2).
Proof.
  assert (Hsid : sessionId (client sessionWorld) <> ""%string) by discriminate.
  destruct (Close_keeps_session sampleDisassembleKey (inl "down"%string)
              (fun _ => committedWith 9%N) sessionWorld Hsid eq_refl)
    as [w2 [Hclose [_ [Hch [_ [Hget _]]]]]].
  exists w2. split; [exact Hclose|]. split; [exact Hch | exact Hget].
Defined.

(** X17 at [leasedTxn] on a fresh driver. *)
Lemma Commit_creates_one_session_witness :
  exists r w' calls,
    Commit_build sampleDisassembleKey (inr "s1"%string) leasedTxn freshWorld
    = (Returned r, w')
    /\ journal w' = journal freshWorld ++ calls
    /\ (calls = [] \/ calls = [CallSessionCreate])
    /\ (sessionId (client freshWorld) <> ""%string -> w' = freshWorld).
Proof.
  assert (Hstore : @inr string string "s1"%string <> inr ""%string) by discriminate.
  exact (Commit_creates_one_session sampleDisassembleKey (inr "s1"%string)
           leasedTxn freshWorld Hstore).
Defined.

